(** * py-healthcheck: the aggregation engine of [healthcheck/healthcheck.py]

    A shallow embedding of the probe registry ([HealthCheckMonitor]), the
    probe handle ([Checker]), the aggregator ([HealthCheck]) and the
    [checker] registration surface, followed by the properties of
    [HealthCheck.run] and [HealthCheck.run_check].

    Conventions of the embedding

    - Python values are the small universe [pyval]; truthiness, [and] and
      tuple unpacking follow the interpreter.
    - [time.time()] reads a clock oracle: the n-th reading of a world is
      [clock w n], whatever it is (the wall clock is neither strictly
      increasing nor monotone).  Epoch seconds are rationals; the rounding
      of binary floating point is not modelled, so nothing is stated
      about how close a float is to the rational it stands for.
    - Positional and keyword arguments are bound as the interpreter binds
      them: a keyword that names a parameter already filled positionally
      is a [TypeError].
    - User callbacks (probes, section providers, formatters, the exception
      adapter) act on the [World] only, return a value or raise, and
      terminate.  Only subclasses of [Exception] are modelled, so
      [except Exception] catches every [exn].
    - Objects with identity live in a heap; the registry and the cache hold
      references ([oid]), which is what makes the cache keyed by identity.
    - Methods run in a state-and-exception monad [M] over [State]; a raised
      exception keeps the state reached so far.
    - [invoked] is a ghost trace: the handles whose call [run_check]
      started, in order.  No code reads it.
    - An aggregator is any [HealthCheck] record and a formatter any
      callback; [HealthCheck.__init__] builds the one and the two JSON
      formatters are instances of the other, over [socket.gethostname()]
      and [json.dumps] taken as given. *)

From Stdlib Require Import QArith Qround Lqa.
From stdpp Require Import gmap strings list fin_maps.

Local Open Scope string_scope.

(** ** Python values *)

#[warnings="-register-all"]
Inductive pyval : Type :=
| VNone
| VBool (b : bool)
| VNum (q : Q)
| VStr (s : string)
| VTuple (items : list pyval).

(** [bool(v)] *)
Definition truthy (v : pyval) : bool :=
  match v with
  | VNone => false
  | VBool b => b
  | VNum q => negb (Qeq_bool q 0)
  | VStr s => negb (String.eqb s "")
  | VTuple items => match items with [] => false | _ => true end
  end.

(** [a and b]: the first operand when it is falsy, else the second. *)
Definition py_and (a b : pyval) : pyval := if truthy a then b else a.

(** Exceptions: the class and what [str(e)] returns. *)
Record exn : Type := Exn { exn_class : string; exn_str : string }.

Definition ValueError (msg : string) : exn := Exn "ValueError" msg.
Definition TypeError (msg : string) : exn := Exn "TypeError" msg.
Definition AttributeError (msg : string) : exn := Exn "AttributeError" msg.

Inductive result (A : Type) : Type :=
| Ok (a : A)
| Raise (e : exn).
Arguments Ok {A} a.
Arguments Raise {A} e.

Definition type_name (v : pyval) : string :=
  match v with
  | VNone => "NoneType"
  | VBool _ => "bool"
  | VNum _ => "float"
  | VStr _ => "str"
  | VTuple _ => "tuple"
  end.

Definition chars (s : string) : list pyval :=
  map (fun c => VStr (String c EmptyString)) (String.list_ascii_of_string s).

(** [a, b = v] *)
Definition unpack2 (v : pyval) : result (pyval * pyval) :=
  let of_items items :=
    match items with
    | [a; b] => Ok (a, b)
    | [] => Raise (ValueError "not enough values to unpack (expected 2, got 0)")
    | [_] => Raise (ValueError "not enough values to unpack (expected 2, got 1)")
    | _ => Raise (ValueError "too many values to unpack (expected 2)")
    end in
  match v with
  | VTuple items => of_items items
  | VStr s => of_items (chars s)
  | _ => Raise (TypeError ("cannot unpack non-iterable " ++ type_name v ++ " object"))
  end.

(** ** Dictionaries in insertion order *)

Section Dict.
Context {K V : Type} `{EqDecision K}.

Definition dict := list (K * V).

Fixpoint dict_get (k : K) (d : list (K * V)) : option V :=
  match d with
  | [] => None
  | (k', v) :: d' => if decide (k = k') then Some v else dict_get k d'
  end.

(** [d[k] = v]: an existing key keeps its place. *)
Fixpoint dict_set (k : K) (v : V) (d : list (K * V)) : list (K * V) :=
  match d with
  | [] => [(k, v)]
  | (k', v') :: d' =>
      if decide (k = k') then (k, v) :: d' else (k', v') :: dict_set k v d'
  end.

Definition dict_values (d : list (K * V)) : list V := map snd d.
Definition dict_keys (d : list (K * V)) : list K := map fst d.
End Dict.

(** ** The world: the clock *)

Record World : Type := { reads : nat; clock : nat -> Q }.

(** [time.time()] *)
Definition time_time (w : World) : Q * World :=
  (clock w (reads w), {| reads := S (reads w); clock := clock w |}).

(** What [time.time()] would return in [w]. *)
Definition peek (w : World) : Q := clock w (reads w).

(** ** Callables *)

Record pyargs : Type := { args : list pyval; kwargs : list (string * pyval) }.

Definition no_args : pyargs := {| args := []; kwargs := [] |}.

Definition callable : Type := pyargs -> World -> result pyval * World.

(** A function object: [__name__] and what calling it does. *)
Record pyfunc : Type := { __name__ : string; code : callable }.

(** ** Objects, the aggregator and the program state *)

Definition oid : Type := positive.

Record Checker : Type := { _name : option string; _wrapped : option pyfunc }.

Inductive pyobj : Type :=
| OChecker (c : Checker)
| OFunction (f : pyfunc).

(** The dict built by [run_check]; the fields are its keys. *)
Module CheckResult.
Record t : Type := {
  checker : option string;
  output : pyval;
  passed : pyval;
  timestamp : Q;
  expires : Q;
  response_time : Q
}.
End CheckResult.

(** A custom section: a static value or a zero-argument provider. *)
Inductive section_value : Type :=
| Static (v : pyval)
| Provider (f : pyfunc).

Definition handler : Type :=
  list CheckResult.t -> list (string * pyval) -> World -> result pyval * World.

Definition adapter : Type := oid -> exn -> World -> result pyval * World.

Record HealthCheck : Type := {
  cache : gmap oid CheckResult.t;
  success_status : Z;
  success_headers : list (string * string);
  success_handler : option handler;
  success_ttl : Q;
  failed_status : Z;
  failed_headers : list (string * string);
  failed_handler : option handler;
  failed_ttl : Q;
  error_timeout : Q;
  exception_handler : adapter;
  functions : list (string * section_value)
}.

Inductive log_record : Type :=
| LogException (e : exn)
| LogError (checker_name : option string) (output : pyval).

Record State : Type := {
  heap : gmap oid pyobj;            (* objects by identity *)
  checkers : list (option string * oid);  (* HealthCheckMonitor.checkers *)
  hc : HealthCheck;                 (* the aggregator run() is called on *)
  world : World;
  logged : list log_record;         (* what the logger received *)
  invoked : list oid                (* ghost: calls started by run_check *)
}.

Definition set_heap (h : gmap oid pyobj) (s : State) : State :=
  {| heap := h; checkers := checkers s; hc := hc s; world := world s;
     logged := logged s; invoked := invoked s |}.
Definition set_checkers (c : list (option string * oid)) (s : State) : State :=
  {| heap := heap s; checkers := c; hc := hc s; world := world s;
     logged := logged s; invoked := invoked s |}.
Definition set_hc (a : HealthCheck) (s : State) : State :=
  {| heap := heap s; checkers := checkers s; hc := a; world := world s;
     logged := logged s; invoked := invoked s |}.
Definition set_world (w : World) (s : State) : State :=
  {| heap := heap s; checkers := checkers s; hc := hc s; world := w;
     logged := logged s; invoked := invoked s |}.
Definition set_logged (l : list log_record) (s : State) : State :=
  {| heap := heap s; checkers := checkers s; hc := hc s; world := world s;
     logged := l; invoked := invoked s |}.
Definition set_invoked (l : list oid) (s : State) : State :=
  {| heap := heap s; checkers := checkers s; hc := hc s; world := world s;
     logged := logged s; invoked := l |}.

Definition set_cache (c : gmap oid CheckResult.t) (a : HealthCheck) : HealthCheck :=
  {| cache := c;
     success_status := success_status a; success_headers := success_headers a;
     success_handler := success_handler a; success_ttl := success_ttl a;
     failed_status := failed_status a; failed_headers := failed_headers a;
     failed_handler := failed_handler a; failed_ttl := failed_ttl a;
     error_timeout := error_timeout a; exception_handler := exception_handler a;
     functions := functions a |}.
Definition set_functions (f : list (string * section_value)) (a : HealthCheck) : HealthCheck :=
  {| cache := cache a;
     success_status := success_status a; success_headers := success_headers a;
     success_handler := success_handler a; success_ttl := success_ttl a;
     failed_status := failed_status a; failed_headers := failed_headers a;
     failed_handler := failed_handler a; failed_ttl := failed_ttl a;
     error_timeout := error_timeout a; exception_handler := exception_handler a;
     functions := f |}.

(** ** The state-and-exception monad *)

Definition M (A : Type) : Type := State -> result A * State.

Definition ret {A} (a : A) : M A := fun s => (Ok a, s).
Definition raise {A} (e : exn) : M A := fun s => (Raise e, s).
Definition bind {A B} (m : M A) (k : A -> M B) : M B :=
  fun s => match m s with
           | (Ok a, s') => k a s'
           | (Raise e, s') => (Raise e, s')
           end.

(** [try: m  except Exception as e: h e] *)
Definition try_except {A} (m : M A) (h : exn -> M A) : M A :=
  fun s => match m s with
           | (Ok a, s') => (Ok a, s')
           | (Raise e, s') => h e s'
           end.

Notation "'let*' x := m 'in' k" := (bind m (fun x => k))
  (at level 10, x pattern, m at level 100, k at level 200).
Notation "m ;;; k" := (bind m (fun _ => k))
  (at level 100, k at level 200, right associativity).

Definition gets {A} (f : State -> A) : M A := fun s => (Ok (f s), s).
Definition modify (f : State -> State) : M unit := fun s => (Ok tt, f s).
Definition lift {A} (r : result A) : M A := fun s => (r, s).

(** Run a callback on the world. *)
Definition in_world {A} (f : World -> result A * World) : M A :=
  fun s => let (r, w) := f (world s) in (r, set_world w s).

Definition now : M Q := in_world (fun w => let (t, w') := time_time w in (Ok t, w')).

Definition logger_exception (e : exn) : M unit :=
  modify (fun s => set_logged (logged s ++ [LogException e]) s).
Definition logger_error (checker_name : option string) (output : pyval) : M unit :=
  modify (fun s => set_logged (logged s ++ [LogError checker_name output]) s).

(** ** The heap *)

(** Follow a reference.  Python references never dangle; a state whose
    registry names an object that is not in the heap is ill-formed and the
    embedding raises there. *)
Definition deref (o : oid) : M pyobj :=
  fun s => match heap s !! o with
           | Some x => (Ok x, s)
           | None => (Raise (Exn "ReferenceError" "no such object"), s)
           end.

Definition alloc (x : pyobj) : M oid :=
  fun s => let o := fresh (dom (heap s)) in
           (Ok o, set_heap (<[o := x]> (heap s)) s).

Definition store (o : oid) (x : pyobj) : M unit :=
  modify (fun s => set_heap (<[o := x]> (heap s)) s).

(** ** HealthCheckMonitor: the process-wide registry *)

Module HealthCheckMonitor.

Definition unregister_all : M unit := modify (set_checkers []).

(** [isinstance(checker, Checker)] keys the entry by [checker.name] (the
    property returns [_name]), anything else by [checker.__name__]. *)
Definition register (checker : oid) : M unit :=
  let* x := deref checker in
  match x with
  | OChecker c =>
      modify (fun s => set_checkers (dict_set (_name c) checker (checkers s)) s)
  | OFunction f =>
      modify (fun s => set_checkers (dict_set (Some (__name__ f)) checker (checkers s)) s)
  end.

Definition get (name : string) : M (option oid) :=
  gets (fun s => dict_get (Some name) (checkers s)).

(** [if name:] is false for [None] and for the empty string;
    [filter(None, [x])] drops a missing entry (objects are truthy). *)
Definition get_checkers (name : option string) : M (list oid) :=
  match name with
  | Some n =>
      if negb (String.eqb n "") then
        let* found := get n in
        ret (match found with Some o => [o] | None => [] end)
      else gets (fun s => dict_values (checkers s))
  | None => gets (fun s => dict_values (checkers s))
  end.

End HealthCheckMonitor.

(** ** Checker: the probe handle *)

(** Binding the keyword arguments [kw] of a call to [qualname], whose
    parameters [params] the call has filled positionally: the first keyword
    that names one of them is a second value for it.  The message is the
    one of CPython 3.10 and later, which name a method with its class. *)
Definition multiple_values (qualname : string) (params : list string)
    (kw : list (string * pyval)) : option exn :=
  match List.find (fun kv => bool_decide (fst kv ∈ params)) kw with
  | Some kv =>
      Some (TypeError (qualname ++ "() got multiple values for argument '"
                         ++ fst kv ++ "'"))
  | None => None
  end.

Module Checker.

Definition __init__ (name : option string) : M oid :=
  alloc (OChecker {| _name := name; _wrapped := None |}).

Definition name (self : Checker) : option string := _name self.

(** [def _call(self, func, *args, **kwargs)], called as
    [self._call(function, *args, **kwargs)]: [self] and [func] are filled,
    every other argument goes on to [func]. *)
Definition _call (func : pyfunc) : callable :=
  fun a w =>
    match multiple_values "Checker._call" ["self"; "func"] (kwargs a) with
    | Some e => (Raise e, w)
    | None => code func a w
    end.

(** [def call(self, *args, **kwargs)], called on the instance.  Before
    [decorate] the instance has no [_wrapped] attribute. *)
Definition call (self : Checker) : callable :=
  fun a w =>
    match multiple_values "Checker.call" ["self"] (kwargs a) with
    | Some e => (Raise e, w)
    | None =>
        match _wrapped self with
        | Some wrapped => code wrapped a w
        | None =>
            (Raise (AttributeError "'Checker' object has no attribute '_wrapped'"), w)
        end
    end.

(** [def __call__(self, *args, **kwargs)], called as [handle(...)]. *)
Definition __call__ (self : Checker) : callable :=
  fun a w =>
    match multiple_values "Checker.__call__" ["self"] (kwargs a) with
    | Some e => (Raise e, w)
    | None => call self a w
    end.

(** The instance a method runs on; [self] is a [Checker] by dispatch. *)
Definition this (self : oid) : M Checker :=
  let* x := deref self in
  match x with
  | OChecker c => ret c
  | OFunction _ => raise (TypeError "not a Checker")
  end.

Definition decorate (self : oid) (function : pyfunc) : M pyfunc :=
  let* c := this self in
  match _name c with
  | None => store self (OChecker {| _name := Some (__name__ function);
                                    _wrapped := _wrapped c |})
  | Some _ => ret tt
  end ;;;
  HealthCheckMonitor.register self ;;;
  let wrapper := {| __name__ := __name__ function;   (* @wraps(function) *)
                    code := fun a => _call function a |} in
  let* c := this self in
  store self (OChecker {| _name := _name c; _wrapped := Some wrapper |}) ;;;
  ret wrapper.

End Checker.

(** Calling an object: a [Checker] through [__call__], a function directly. *)
Definition call_object (h : gmap oid pyobj) (o : oid) : callable :=
  fun a w =>
    match h !! o with
    | Some (OChecker c) => Checker.__call__ c a w
    | Some (OFunction f) => code f a w
    | None => (Raise (Exn "ReferenceError" "no such object"), w)
    end.

(** [o.name]: the property of a [Checker]; a plain function has none. *)
Definition get_name (o : oid) : M (option string) :=
  let* x := deref o in
  match x with
  | OChecker c => ret (Checker.name c)
  | OFunction _ => raise (AttributeError "'function' object has no attribute 'name'")
  end.

(** ** checker: the registration surface *)

(** The argument of [checker]: nothing, a name, or the function itself. *)
Inductive checker_arg : Type :=
| ArgNone
| ArgName (name : string)
| ArgFunction (f : pyfunc).

(** What [checker] returns: the wrapper, or the bound method [decorate] of a
    new [Checker]. *)
Inductive checker_ret : Type :=
| Wrapper (w : pyfunc)
| Decorator (self : oid).

Definition checker (name : checker_arg) : M checker_ret :=
  match name with
  | ArgFunction f =>
      let* self := Checker.__init__ None in
      let* w := Checker.decorate self f in
      ret (Wrapper w)
  | ArgName n =>
      let* self := Checker.__init__ (Some n) in
      ret (Decorator self)
  | ArgNone =>
      let* self := Checker.__init__ None in
      ret (Decorator self)
  end.

(** ** Module-level helpers *)

Definition basic_exception_handler : adapter :=
  fun _ e w => (Ok (VTuple [VBool false; VStr (exn_str e)]), w).

Definition check_reduce (passed : pyval) (result : CheckResult.t) : pyval :=
  py_and passed (CheckResult.passed result).

Definition Qlt_bool (x y : Q) : bool := negb (Qle_bool y x).

(** [float('{:.6f}'.format(x))] over the rationals: the nearest multiple of
    10^-6, ties to even.  The program holds the nearest double of that
    decimal; how far the double is from it is not modelled. *)
Definition round6 (x : Q) : Q :=
  let scaled := (x * 1000000)%Q in
  let lo := Qfloor scaled in
  let twice_frac := ((scaled - inject_Z lo) * 2)%Q in
  let n := if Qlt_bool twice_frac 1 then lo
           else if Qlt_bool 1 twice_frac then (lo + 1)%Z
           else if Z.even lo then lo else (lo + 1)%Z in
  Qmake n 1000000.

(** ** HealthCheck: the aggregator *)

Definition dquote : string := String (Ascii.ascii_of_nat 34) EmptyString.

(** What [add_check] receives: a [Checker] instance or a plain function. *)
Inductive check_arg : Type :=
| CheckerInstance (o : oid)
| PlainFunction (f : pyfunc).

Definition response : Type := (pyval * Z * list (string * string))%type.

(** ** The default formatters *)

(** A value of the dict the formatters hand to [json.dumps]: a plain value,
    or the list of result dicts. *)
Inductive envelope_value : Type :=
| EValue (v : pyval)
| EResults (results : list CheckResult.t).

Section Formatters.

(** [socket.gethostname()] and [json.dumps] are library functions, taken as
    given; every value of the model is serialisable. *)
Variable hostname : string.
Variable json_dumps : list (string * envelope_value) -> string.

(** [data], once [[data.update({k: v}) for k, v in kw.items()]] has run. *)
Definition json_data (status : string) (timestamp : Q)
    (results : list CheckResult.t) (kw : list (string * pyval))
    : list (string * envelope_value) :=
  fold_left (fun data kv => dict_set (fst kv) (EValue (snd kv)) data) kw
    [("hostname", EValue (VStr hostname));
     ("status", EValue (VStr status));
     ("timestamp", EValue (VNum timestamp));
     ("results", EResults results)].

(** [def json_success_handler(results, *args, **kw)], called as
    [handler(results, **custom_section)]: a section called results is a
    second value for the first parameter. *)
Definition json_success_handler : handler :=
  fun results kw w =>
    if decide ("results" ∈ dict_keys kw) then
      (Raise (TypeError
                "json_success_handler() got multiple values for argument 'results'"), w)
    else
      let (timestamp, w') := time_time w in
      (Ok (VStr (json_dumps (json_data "success" timestamp results kw))), w').

Definition json_failed_handler : handler :=
  fun results kw w =>
    if decide ("results" ∈ dict_keys kw) then
      (Raise (TypeError
                "json_failed_handler() got multiple values for argument 'results'"), w)
    else
      let (timestamp, w') := time_time w in
      (Ok (VStr (json_dumps (json_data "failure" timestamp results kw))), w').

End Formatters.

(** The arguments of [HealthCheck.__init__]; [None] where the caller may
    pass it. *)
Record init_args : Type := {
  arg_success_status : Z;
  arg_success_headers : option (list (string * string));
  arg_success_handler : option handler;
  arg_success_ttl : option Q;
  arg_failed_status : Z;
  arg_failed_headers : option (list (string * string));
  arg_failed_handler : option handler;
  arg_failed_ttl : option Q;
  arg_error_timeout : Q;
  arg_exception_handler : adapter;
  arg_checkers : option (list check_arg);
  arg_kwargs : list (string * section_value)
}.

(** The defaults of the signature. *)
Definition default_args (hostname : string)
    (json_dumps : list (string * envelope_value) -> string) : init_args :=
  {| arg_success_status := 200;
     arg_success_headers := None;
     arg_success_handler := Some (json_success_handler hostname json_dumps);
     arg_success_ttl := Some 27%Q;
     arg_failed_status := 500;
     arg_failed_headers := None;
     arg_failed_handler := Some (json_failed_handler hostname json_dumps);
     arg_failed_ttl := Some 9%Q;
     arg_error_timeout := 0;
     arg_exception_handler := basic_exception_handler;
     arg_checkers := None;
     arg_kwargs := [] |}.

(** [float(ttl or 0)] *)
Definition ttl_or_zero (ttl : option Q) : Q :=
  match ttl with
  | Some t => if Qeq_bool t 0 then 0%Q else t
  | None => 0%Q
  end.

(** [headers or {'Content-Type': 'application/json'}]: an empty dict is
    falsy, too. *)
Definition headers_or_json (headers : option (list (string * string)))
    : list (string * string) :=
  match headers with
  | Some (h :: hs) => h :: hs
  | _ => [("Content-Type", "application/json")]
  end.

(** [[f(x) for x in l]], for its effects. *)
Fixpoint for_each {A} (f : A -> M unit) (l : list A) : M unit :=
  match l with
  | [] => ret tt
  | x :: l' => f x ;;; for_each f l'
  end.

Module HealthCheck.

Definition add_section (name : string) (func : section_value) : M unit :=
  let* self := gets hc in
  match dict_get name (functions self) with
  | Some _ =>
      raise (Exn "Exception"
               ("The name " ++ dquote ++ name ++ dquote ++ " is already taken."))
  | None =>
      modify (fun s => set_hc (set_functions (dict_set name func (functions (hc s))) (hc s)) s)
  end.

Definition add_check (func : check_arg) : M unit :=
  match func with
  | PlainFunction f =>
      let* self := Checker.__init__ None in
      Checker.decorate self f ;;; ret tt
  | CheckerInstance o => HealthCheckMonitor.register o
  end.

(** The state holds one aggregator: [__init__] makes it a new one.  The
    checkers go to the shared registry; [self.functions] is assigned after
    them. *)
Definition __init__ (a : init_args) : M unit :=
  modify (set_hc {| cache := ∅;
                    success_status := arg_success_status a;
                    success_headers := headers_or_json (arg_success_headers a);
                    success_handler := arg_success_handler a;
                    success_ttl := ttl_or_zero (arg_success_ttl a);
                    failed_status := arg_failed_status a;
                    failed_headers := headers_or_json (arg_failed_headers a);
                    failed_handler := arg_failed_handler a;
                    failed_ttl := ttl_or_zero (arg_failed_ttl a);
                    error_timeout := arg_error_timeout a;
                    exception_handler := arg_exception_handler a;
                    functions := [] |}) ;;;
  match arg_checkers a with
  | Some (c :: cs) => for_each add_check (c :: cs)
  | _ => ret tt
  end ;;;
  modify (fun s => set_hc (set_functions [] (hc s)) s) ;;;
  for_each (fun kv =>
              let* self := gets hc in
              match dict_get (fst kv) (functions self) with
              | None => add_section (fst kv) (snd kv)
              | Some _ => ret tt
              end)
           (arg_kwargs a).

(** One turn of the loop over [self.functions]: a provider is called, a
    raising provider leaves [custom_section] as it is. *)
Definition collect_section (entry : string * section_value)
    (custom_section : list (string * pyval)) : M (list (string * pyval)) :=
  let (name, func) := entry in
  try_except
    (match func with
     | Provider f =>
         let* v := in_world (code f no_args) in
         ret (dict_set name v custom_section)
     | Static v => ret (dict_set name v custom_section)
     end)
    (fun _ => ret custom_section).

Fixpoint collect_sections (entries : list (string * section_value))
    (custom_section : list (string * pyval)) : M (list (string * pyval)) :=
  match entries with
  | [] => ret custom_section
  | entry :: rest =>
      let* custom_section := collect_section entry custom_section in
      collect_sections rest custom_section
  end.

Section Run.

(** [from .timeout import timeout]: the module is outside this
    development; [timeout seconds error_message func] is the guarded
    callable. *)
Variable timeout : Q -> string -> callable -> callable.

Definition run_check (checker : oid) : M CheckResult.t :=
  let* start_time := now in
  let* (passed, output) :=
    try_except
      (let* self := gets hc in
       let* h := gets heap in
       let probe := call_object h checker in
       modify (fun s => set_invoked (invoked s ++ [checker]) s) ;;;
       let* v :=
         in_world ((if Qlt_bool 0 (error_timeout self)
                    then timeout (error_timeout self) "Timeout error!" probe
                    else probe) no_args) in
       lift (unpack2 v))
      (fun e =>
         logger_exception e ;;;
         let* self := gets hc in
         let* v := in_world (exception_handler self checker e) in
         lift (unpack2 v)) in
  let* end_time := now in
  let elapsed_time := round6 (end_time - start_time) in
  (if negb (truthy passed)
   then let* n := get_name checker in logger_error n output
   else ret tt) ;;;
  let* timestamp := now in
  let* self := gets hc in
  let expires := if truthy passed
                 then (timestamp + success_ttl self)%Q
                 else (timestamp + failed_ttl self)%Q in
  let* n := get_name checker in
  ret {| CheckResult.checker := n;
         CheckResult.output := output;
         CheckResult.passed := passed;
         CheckResult.timestamp := timestamp;
         CheckResult.expires := expires;
         CheckResult.response_time := elapsed_time |}.

(** Execute the probe and store the result under the handle. *)
Definition refresh (checker : oid) : M CheckResult.t :=
  let* result := run_check checker in
  modify (fun s => set_hc (set_cache (<[checker := result]> (cache (hc s))) (hc s)) s) ;;;
  ret result.

(** The body of the loop over the resolved handles.  The clock is read
    only when the handle is in the cache. *)
Definition cached_or_run (checker : oid) : M CheckResult.t :=
  let* self := gets hc in
  match cache self !! checker with
  | Some entry =>
      let* t := now in
      if Qle_bool t (CheckResult.expires entry) then ret entry
      else refresh checker
  | None => refresh checker
  end.

Fixpoint collect_results (filtered : list oid) (results : list CheckResult.t)
    : M (list CheckResult.t) :=
  match filtered with
  | [] => ret results
  | checker :: rest =>
      let* result := cached_or_run checker in
      collect_results rest (results ++ [result])
  end.

Definition run (check : option string) : M response :=
  let* filtered := HealthCheckMonitor.get_checkers check in
  let* results := collect_results filtered [] in
  let* self := gets hc in
  let* custom_section := collect_sections (functions self) [] in
  let passed := fold_left check_reduce results (VBool true) in
  if truthy passed then
    let* self := gets hc in
    let* message :=
      match success_handler self with
      | Some success_handler => in_world (success_handler results custom_section)
      | None => ret (VStr "OK")
      end in
    ret (message, success_status self, success_headers self)
  else
    let* self := gets hc in
    let* message :=
      match failed_handler self with
      | Some failed_handler => in_world (failed_handler results custom_section)
      | None => ret (VStr "NOT OK")
      end in
    ret (message, failed_status self, failed_headers self).

End Run.

End HealthCheck.

(** ** The timeout guard *)

(** Time passes: every later reading of the clock is [d] seconds later. *)
Definition advance (d : Q) (w : World) : World :=
  {| reads := reads w; clock := fun n => (clock w n + d)%Q |}.

(** Modelled from the spec: the function [timeout] of the module
    [healthcheck/timeout.py], which [healthcheck.py] imports and which is not
    among the sources.  Section 4.4: invoke the handle under a deadline; if
    the deadline elapses before return, abort the invocation and produce a
    synthetic result (passed=False, output=the message) instead of the
    probe's own result.  The deadline has elapsed when the clock moved by
    more than [seconds] across the invocation; the caller then resumes
    [seconds] later.  The message is the one the call site passes. *)
Definition timeout (seconds : Q) (error_message : string) (func : callable) : callable :=
  fun a w =>
    let (r, w') := func a w in
    if Qlt_bool seconds (peek w' - peek w)
    then (Ok (VTuple [VBool false; VStr error_message]), advance seconds w)
    else (r, w').

(** Modelled from the spec: the same guard when, as section 4.4 allows, the
    timeout is signalled by an exception that carries the message and is
    left to the exception adapter. *)
Definition timeout_raising (seconds : Q) (error_message : string) (func : callable) : callable :=
  fun a w =>
    let (r, w') := func a w in
    if Qlt_bool seconds (peek w' - peek w)
    then (Raise (Exn "TimeoutError" error_message), advance seconds w)
    else (r, w').

(** The callable [run_check] invokes for a probe. *)
Definition guarded (timeout : Q -> string -> callable -> callable)
    (self : HealthCheck) (probe : callable) : callable :=
  if Qlt_bool 0 (error_timeout self)
  then timeout (error_timeout self) "Timeout error!" probe
  else probe.

(** ** Vocabulary of the statements *)

(** The logical AND of the [passed] fields. *)
Definition all_passed (results : list CheckResult.t) : bool :=
  forallb (fun r => truthy (CheckResult.passed r)) results.

(** The success branch of [run]: the body of the success handler, or the
    literal OK without one, with the success status and headers. *)
Definition success_branch (results : list CheckResult.t)
    (custom_section : list (string * pyval)) : M response :=
  fun s =>
    match success_handler (hc s) with
    | Some format =>
        match format results custom_section (world s) with
        | (Ok body, w) =>
            (Ok (body, success_status (hc s), success_headers (hc s)), set_world w s)
        | (Raise e, w) => (Raise e, set_world w s)
        end
    | None => (Ok (VStr "OK", success_status (hc s), success_headers (hc s)), s)
    end.

(** The failure branch, likewise. *)
Definition failed_branch (results : list CheckResult.t)
    (custom_section : list (string * pyval)) : M response :=
  fun s =>
    match failed_handler (hc s) with
    | Some format =>
        match format results custom_section (world s) with
        | (Ok body, w) =>
            (Ok (body, failed_status (hc s), failed_headers (hc s)), set_world w s)
        | (Raise e, w) => (Raise e, set_world w s)
        end
    | None => (Ok (VStr "NOT OK", failed_status (hc s), failed_headers (hc s)), s)
    end.

(** The configuration of an aggregator: everything but the cache. *)
Definition config (self : HealthCheck) : HealthCheck := set_cache ∅ self.

(** How a state may differ after [run]: the heap, the registry and the
    configuration are the same, the handles in [new] were invoked, no cache
    entry is gone and only entries of invoked handles differ. *)
Record evolves (s s' : State) : Prop := {
  ev_heap : heap s' = heap s;
  ev_checkers : checkers s' = checkers s;
  ev_config : config (hc s') = config (hc s);
  ev_cache : exists new,
      invoked s' = (invoked s ++ new)%list /\
      (forall k, is_Some (cache (hc s) !! k) -> is_Some (cache (hc s') !! k)) /\
      (forall k, k ∉ new -> cache (hc s') !! k = cache (hc s) !! k)
}.

(** Every resolved entry is a [Checker] instance. *)
Definition handles (h : gmap oid pyobj) (filtered : list oid) : Prop :=
  forall o, o ∈ filtered -> exists c, h !! o = Some (OChecker c).

(** ** Fixtures *)

Definition returns (v : pyval) : callable := fun _ w => (Ok v, w).
Definition raises (e : exn) : callable := fun _ w => (Raise e, w).
Definition sleeps (d : Q) (v : pyval) : callable := fun _ w => (Ok v, advance d w).

Definition probe_ok : pyfunc :=
  {| __name__ := "db"; code := returns (VTuple [VBool true; VStr "fine"]) |}.
Definition probe_down : pyfunc :=
  {| __name__ := "queue"; code := returns (VTuple [VBool false; VStr "down"]) |}.
Definition probe_boom : pyfunc :=
  {| __name__ := "disk"; code := raises (ValueError "boom") |}.
Definition probe_slow : pyfunc :=
  {| __name__ := "slow";
     code := sleeps 1 (VTuple [VBool true; VStr "Waited for 1 second"]) |}.

Definition json_headers : list (string * string) :=
  [("Content-Type", "application/json")].

(** The defaults of [HealthCheck.__init__], without formatters. *)
Definition plain_hc : HealthCheck :=
  {| cache := ∅;
     success_status := 200; success_headers := json_headers;
     success_handler := None; success_ttl := 27;
     failed_status := 500; failed_headers := json_headers;
     failed_handler := None; failed_ttl := 9;
     error_timeout := 0; exception_handler := basic_exception_handler;
     functions := [] |}.

Definition with_failed_ttl (ttl : Q) (a : HealthCheck) : HealthCheck :=
  {| cache := cache a;
     success_status := success_status a; success_headers := success_headers a;
     success_handler := success_handler a; success_ttl := success_ttl a;
     failed_status := failed_status a; failed_headers := failed_headers a;
     failed_handler := failed_handler a; failed_ttl := ttl;
     error_timeout := error_timeout a; exception_handler := exception_handler a;
     functions := functions a |}.

Definition with_error_timeout (t : Q) (a : HealthCheck) : HealthCheck :=
  {| cache := cache a;
     success_status := success_status a; success_headers := success_headers a;
     success_handler := success_handler a; success_ttl := success_ttl a;
     failed_status := failed_status a; failed_headers := failed_headers a;
     failed_handler := failed_handler a; failed_ttl := failed_ttl a;
     error_timeout := t; exception_handler := exception_handler a;
     functions := functions a |}.

(** A clock that ticks one second per reading, from epoch second 1000. *)
Definition ticking : World :=
  {| reads := 0; clock := fun n => inject_Z (1000 + Z.of_nat n) |}.

(** A clock that does not move between readings. *)
Definition frozen : World := {| reads := 0; clock := fun _ => 1000%Q |}.

Definition empty_state (a : HealthCheck) (w : World) : State :=
  {| heap := ∅; checkers := []; hc := a; world := w; logged := []; invoked := [] |}.

(** The state after [checker(f)] for each [f], in order. *)
Fixpoint registered (fs : list pyfunc) (s : State) : State :=
  match fs with
  | [] => s
  | f :: fs' => registered fs' (snd (checker (ArgFunction f) s))
  end.

(** The value a computation returned, or [d] when it raised. *)
Definition value {A} (d : A) (r : result A) : A :=
  match r with Ok a => a | Raise _ => d end.

Definition no_result : CheckResult.t :=
  {| CheckResult.checker := None; CheckResult.output := VNone;
     CheckResult.passed := VNone; CheckResult.timestamp := 0;
     CheckResult.expires := 0; CheckResult.response_time := 0 |}.

Definition one_probe : State :=
  registered [probe_ok] (empty_state plain_hc ticking).
Definition two_probes : State :=
  registered [probe_ok; probe_down] (empty_state plain_hc ticking).
Definition boom_probes : State :=
  registered [probe_ok; probe_boom] (empty_state plain_hc ticking).
Definition slow_probe : State :=
  registered [probe_slow] (empty_state (with_error_timeout (1 # 100) plain_hc) ticking).
Definition frozen_failing : State :=
  registered [probe_down] (empty_state (with_failed_ttl 0 plain_hc) frozen).

(** A bare [Checker(name=...)], not yet decorated. *)
Definition bare_checker : State :=
  snd (Checker.__init__ (Some "db") (empty_state plain_hc ticking)).

Definition some_sections : list (string * section_value) :=
  [("version", Static (VStr "1.0"));
   ("uptime", Provider {| __name__ := "uptime"; code := raises (Exn "OSError" "no /proc") |});
   ("build", Provider {| __name__ := "build"; code := returns (VNum 42) |})].

(** ** More vocabulary *)

(** The world once [time.time()] has been read. *)
Definition tick (w : World) : World := snd (time_time w).

(** A computation every run of which relates the states by [R]. *)
Definition keeps {A} (R : State -> State -> Prop) (m : M A) : Prop :=
  forall s, R s (snd (m s)).




(** The invocation of [checker] that [run_check] starts in [s] outlasts
    [seconds]: the clock moves by more than that across the call. *)
Definition exceeds_deadline (s : State) (checker : oid) (seconds : Q) : Prop :=
  let w0 := tick (world s) in
  (seconds < peek (snd (call_object (heap s) checker no_args w0)) - peek w0)%Q.

(** What one custom section contributes under its name when collected in
    the world [w]. *)
Definition section_outcome (func : section_value) (w : World) : option pyval :=
  match func with
  | Static v => Some v
  | Provider f =>
      match fst (code f no_args w) with
      | Ok v => Some v
      | Raise _ => None
      end
  end.

(** The closure [decorate] builds around [function]. *)
Definition wrapper_of (function : pyfunc) : pyfunc :=
  {| __name__ := __name__ function; code := fun a => Checker._call function a |}.

(** No keyword of the call is named like a parameter of the methods a call
    of a handle goes through ([__call__], [call], [_call]). *)
Definition forwardable (a : pyargs) : Prop :=
  ("self" ∉ dict_keys (kwargs a)) /\ ("func" ∉ dict_keys (kwargs a)).

(** Calls with one keyword argument. *)
Definition keyword_func : pyargs := {| args := []; kwargs := [("func", VNone)] |}.
Definition keyword_self : pyargs := {| args := []; kwargs := [("self", VNone)] |}.

(** ** Vocabulary of the further properties *)

(** Nothing but the world and the log differs. *)
Definition quiet (s s' : State) : Prop :=
  heap s' = heap s /\ checkers s' = checkers s /\ hc s' = hc s /\ invoked s' = invoked s.

(** The cache entries of the resolved handles, in resolution order. *)
Definition cached_entries (s : State) (filtered : list oid) : list CheckResult.t :=
  omap (fun o => cache (hc s) !! o) filtered.

(** The probe of [checker] returns a passing pair whenever it is invoked. *)
Definition always_passes (timeout : Q -> string -> callable -> callable)
    (checker : oid) (s : State) : Prop :=
  forall w, exists p out w',
    guarded timeout (hc s) (call_object (heap s) checker) no_args w
      = (Ok (VTuple [p; out]), w') /\ truthy p = true.

(** Whatever the cache holds for the handles of [filtered] passed. *)
Definition cached_passing (filtered : list oid) (s : State) : Prop :=
  forall o r, o ∈ filtered -> cache (hc s) !! o = Some r ->
              truthy (CheckResult.passed r) = true.

(** What reading [name] off a plain function raises. *)
Definition no_name_error : exn :=
  AttributeError "'function' object has no attribute 'name'".

(** What calling a [Checker] that never decorated anything raises. *)
Definition no_wrapped_error : exn :=
  AttributeError "'Checker' object has no attribute '_wrapped'".

(** The exception the try block of [run_check] ends in, if any: the one
    the guarded call raised, or the one unpacking its return value
    raised. *)
Definition caught (timeout : Q -> string -> callable -> callable)
    (checker : oid) (s : State) : option exn :=
  match guarded timeout (hc s) (call_object (heap s) checker) no_args (tick (world s)) with
  | (Raise e, _) => Some e
  | (Ok v, _) => match unpack2 v with Raise e => Some e | Ok _ => None end
  end.

(** The name [register] files an object under. *)
Definition registry_key (x : pyobj) : option string :=
  match x with
  | OChecker c => Checker.name c
  | OFunction f => Some (__name__ f)
  end.

(** What [add_section] raises for a name that is taken. *)
Definition name_taken (name : string) : exn :=
  Exn "Exception" ("The name " ++ dquote ++ name ++ dquote ++ " is already taken.").

(** The keys the formatters set themselves. *)
Definition reserved_keys : list string := ["hostname"; "status"; "timestamp"; "results"].

(** The name [add_check] files its argument under, with the objects of
    [h]. *)
Definition check_key (h : gmap oid pyobj) (c : check_arg) : option string :=
  match c with
  | PlainFunction f => Some (__name__ f)
  | CheckerInstance o =>
      match h !! o with Some x => registry_key x | None => None end
  end.

(** The registry of [s'] resolves the name of [c] to [c]: to the instance
    itself, or to a handle of the function that [s] did not have. *)
Definition resolves_to (s s' : State) (c : check_arg) : Prop :=
  match c with
  | CheckerInstance o => dict_get (check_key (heap s) c) (checkers s') = Some o
  | PlainFunction f =>
      exists o, dict_get (Some (__name__ f)) (checkers s') = Some o /\
                heap s' !! o = Some (OChecker {| _name := Some (__name__ f);
                                                 _wrapped := Some (wrapper_of f) |}) /\
                heap s !! o = None
  end.

(** The checkers [__init__] registers. *)
Definition checkers_of (a : init_args) : list check_arg :=
  match arg_checkers a with Some l => l | None => [] end.

(** The aggregator [__init__] builds. *)
Definition new_aggregator (a : init_args) : HealthCheck :=
  {| cache := ∅;
     success_status := arg_success_status a;
     success_headers := headers_or_json (arg_success_headers a);
     success_handler := arg_success_handler a;
     success_ttl := ttl_or_zero (arg_success_ttl a);
     failed_status := arg_failed_status a;
     failed_headers := headers_or_json (arg_failed_headers a);
     failed_handler := arg_failed_handler a;
     failed_ttl := ttl_or_zero (arg_failed_ttl a);
     error_timeout := arg_error_timeout a;
     exception_handler := arg_exception_handler a;
     functions := arg_kwargs a |}.

(** Registration only adds: the aggregator, the world and the trace are the
    same, objects stay what they are, registered names stay registered. *)
Definition grows (s s' : State) : Prop :=
  hc s' = hc s /\ world s' = world s /\ invoked s' = invoked s /\
  (forall o x, heap s !! o = Some x -> heap s' !! o = Some x) /\
  (forall k, is_Some (dict_get k (checkers s)) -> is_Some (dict_get k (checkers s'))).

(** A probe function that returns a passing pair whenever it is called. *)
Definition passing (f : pyfunc) : Prop :=
  forall a w, exists p out w',
    code f a w = (Ok (VTuple [p; out]), w') /\ truthy p = true.

(** The handle [checker(f)] creates. *)
Definition handle_of (f : pyfunc) : pyobj :=
  OChecker {| _name := Some (__name__ f); _wrapped := Some (wrapper_of f) |}.

(** ** More fixtures *)

Definition probe_none : pyfunc := {| __name__ := "none"; code := returns VNone |}.
Definition probe_mail : pyfunc :=
  {| __name__ := "mail"; code := returns (VTuple [VBool true; VStr "sent"]) |}.
Definition probe_db2 : pyfunc :=
  {| __name__ := "db"; code := returns (VTuple [VBool true; VStr "replica"]) |}.

(** An adapter that raises what it is given. *)
Definition reraising_adapter : adapter := fun _ e w => (Raise e, w).

Definition with_exception_handler (h : adapter) (a : HealthCheck) : HealthCheck :=
  {| cache := cache a;
     success_status := success_status a; success_headers := success_headers a;
     success_handler := success_handler a; success_ttl := success_ttl a;
     failed_status := failed_status a; failed_headers := failed_headers a;
     failed_handler := failed_handler a; failed_ttl := failed_ttl a;
     error_timeout := error_timeout a; exception_handler := h;
     functions := functions a |}.

Definition with_handlers (ok ko : option handler) (a : HealthCheck) : HealthCheck :=
  {| cache := cache a;
     success_status := success_status a; success_headers := success_headers a;
     success_handler := ok; success_ttl := success_ttl a;
     failed_status := failed_status a; failed_headers := failed_headers a;
     failed_handler := ko; failed_ttl := failed_ttl a;
     error_timeout := error_timeout a; exception_handler := exception_handler a;
     functions := functions a |}.

Definition none_probe : State :=
  registered [probe_none] (empty_state plain_hc ticking).
Definition reraising_boom : State :=
  registered [probe_boom]
    (empty_state (with_exception_handler reraising_adapter plain_hc) ticking).

(** [probe_ok], once run under a clock that does not move. *)
Definition frozen_cached : State :=
  snd (HealthCheck.run timeout None
         (registered [probe_ok] (empty_state plain_hc frozen))).

(** A plain function put into the registry by [HealthCheckMonitor.register]. *)
Definition plain_function_state : State :=
  snd (HealthCheckMonitor.register 1%positive
         {| heap := {[ 1%positive := OFunction probe_ok ]}; checkers := [];
            hc := plain_hc; world := ticking; logged := []; invoked := [] |}).

(** Stand-ins for [socket.gethostname()] and [json.dumps]. *)
Definition a_hostname : string := "web-1".
Definition keys_only (data : list (string * envelope_value)) : string :=
  String.concat "," (dict_keys data).

Definition json_hc : HealthCheck :=
  with_handlers (Some (json_success_handler a_hostname keys_only))
                (Some (json_failed_handler a_hostname keys_only)) plain_hc.

Definition json_two_probes : State :=
  registered [probe_ok; probe_down] (empty_state json_hc ticking).

Definition json_results_section : State :=
  snd (HealthCheck.add_section "results" (Static (VStr "mine")) json_two_probes).

(** A checker that was never used as a decorator. *)
Definition unnamed_checker : State :=
  snd (Checker.__init__ None (empty_state plain_hc ticking)).

(** [HealthCheck(success_headers={}, success_handler=None, success_ttl=None,
    failed_status=503, failed_handler=None, failed_ttl=0,
    checkers=[a_function, a_checker], version=..., uptime=..., build=...)] *)
Definition some_args : init_args :=
  {| arg_success_status := 200;
     arg_success_headers := Some [];
     arg_success_handler := None;
     arg_success_ttl := None;
     arg_failed_status := 503;
     arg_failed_headers := None;
     arg_failed_handler := None;
     arg_failed_ttl := Some 0%Q;
     arg_error_timeout := 0;
     arg_exception_handler := basic_exception_handler;
     arg_checkers := Some [PlainFunction probe_mail; CheckerInstance 1%positive];
     arg_kwargs := some_sections |}.

(** Custom sections as the formatters receive them. *)
Definition some_kw : list (string * pyval) :=
  [("status", VStr "degraded"); ("version", VStr "1.0")].

(** * Properties *)

(** ** Truthiness and the reduction *)

Lemma truthy_py_and a b : truthy (py_and a b) = truthy a && truthy b.
Proof. unfold py_and. destruct (truthy a) eqn:E; simpl; auto. Qed.

(** [reduce(check_reduce, results, acc)] is truthy exactly when [acc] and
    every [passed] field are. *)
Lemma truthy_reduce results acc :
  truthy (fold_left check_reduce results acc) = truthy acc && all_passed results.
Proof.
  revert acc. induction results as [|r rs IH]; intros acc; simpl.
  - by rewrite andb_true_r.
  - rewrite IH. unfold check_reduce. rewrite truthy_py_and. by rewrite andb_assoc.
Qed.


(** ** Comparisons on the rationals *)

Lemma Qle_bool_false x y : Qle_bool x y = false <-> (y < x)%Q.
Proof.
  split.
  - intros H. apply Qnot_le_lt. intros Hle. apply Qle_bool_iff in Hle. congruence.
  - intros H. destruct (Qle_bool x y) eqn:E; [|done].
    apply Qle_bool_iff in E. exfalso. by apply (Qlt_not_le _ _ H).
Qed.

Lemma Qlt_bool_true x y : Qlt_bool x y = true <-> (x < y)%Q.
Proof. unfold Qlt_bool. rewrite negb_true_iff. apply Qle_bool_false. Qed.

(** ** Dictionaries *)

Section DictFacts.
Context {K V : Type} `{EqDecision K}.
Implicit Types (d : list (K * V)).

Lemma dict_get_set_eq k v d : dict_get k (dict_set k v d) = Some v.
Proof.
  induction d as [|[k' v'] d IH]; simpl.
  - by rewrite decide_True.
  - destruct (decide (k = k')) as [->|Hne]; simpl.
    + by rewrite decide_True.
    + by rewrite decide_False.
Qed.

Lemma dict_get_set_ne k k' v d : k ≠ k' -> dict_get k (dict_set k' v d) = dict_get k d.
Proof.
  intros Hne. induction d as [|[k'' v''] d IH]; simpl.
  - by rewrite decide_False.
  - destruct (decide (k' = k'')) as [->|Hne']; simpl.
    + by rewrite !decide_False.
    + destruct (decide (k = k'')); [done|]. apply IH.
Qed.
End DictFacts.

(** ** The frame of a run *)

Lemma evolves_refl s : evolves s s.
Proof.
  split; try done. exists []. split; [by rewrite app_nil_r | done].
Qed.

Lemma evolves_trans s1 s2 s3 : evolves s1 s2 -> evolves s2 s3 -> evolves s1 s3.
Proof.
  intros [Hh Hc Hg (n1 & Hi1 & Hk1 & Hf1)] [Hh' Hc' Hg' (n2 & Hi2 & Hk2 & Hf2)].
  split; try congruence.
  exists (n1 ++ n2)%list. split; [|split].
  - rewrite Hi2, Hi1. by rewrite app_assoc.
  - auto.
  - intros k Hk. rewrite Hf2, Hf1; [done| |]; intros ?; apply Hk; set_solver.
Qed.

Lemma evolves_world s w : evolves s (set_world w s).
Proof. split; try done. exists []. simpl. by rewrite app_nil_r. Qed.

Lemma evolves_logged s l : evolves s (set_logged l s).
Proof. split; try done. exists []. simpl. by rewrite app_nil_r. Qed.

Lemma config_exception_handler a b :
  config a = config b -> exception_handler a = exception_handler b.
Proof. intros H. by apply (f_equal exception_handler) in H. Qed.

Lemma config_guarded timeout a b :
  config a = config b -> guarded timeout a = guarded timeout b.
Proof.
  intros H. unfold guarded. apply (f_equal error_timeout) in H. simpl in H.
  by rewrite H.
Qed.

Section Keeps.
Context (R : State -> State -> Prop).
Hypothesis R_refl : forall s, R s s.
Hypothesis R_trans : forall s1 s2 s3, R s1 s2 -> R s2 s3 -> R s1 s3.

Lemma keeps_ret {A} (a : A) : keeps R (ret a).
Proof. intros s. apply R_refl. Qed.

Lemma keeps_raise {A} e : keeps R (@raise A e).
Proof. intros s. apply R_refl. Qed.

Lemma keeps_lift {A} (r : result A) : keeps R (lift r).
Proof. intros s. apply R_refl. Qed.

Lemma keeps_gets {A} (f : State -> A) : keeps R (gets f).
Proof. intros s. apply R_refl. Qed.

Lemma keeps_bind {A B} (m : M A) (k : A -> M B) :
  keeps R m -> (forall a, keeps R (k a)) -> keeps R (bind m k).
Proof.
  intros Hm Hk s. unfold bind. specialize (Hm s).
  destruct (m s) as [[a|e] s1]; simpl in *; [|done].
  eapply R_trans; [exact Hm | apply Hk].
Qed.

Lemma keeps_try_except {A} (m : M A) (h : exn -> M A) :
  keeps R m -> (forall e, keeps R (h e)) -> keeps R (try_except m h).
Proof.
  intros Hm Hh s. unfold try_except. specialize (Hm s).
  destruct (m s) as [[a|e] s1]; simpl in *; [done|].
  eapply R_trans; [exact Hm | apply Hh].
Qed.
End Keeps.

Lemma keeps_in_world {A} (f : World -> result A * World) : keeps evolves (in_world f).
Proof. intros s. unfold in_world. destruct (f (world s)). apply evolves_world. Qed.

Lemma keeps_now : keeps evolves now.
Proof. apply keeps_in_world. Qed.

Lemma keeps_deref o : keeps evolves (deref o).
Proof. intros s. unfold deref. destruct (heap s !! o); apply evolves_refl. Qed.

Lemma keeps_get_name o : keeps evolves (get_name o).
Proof.
  apply keeps_bind; [apply evolves_trans | apply keeps_deref |].
  intros [c|f]; [apply keeps_ret | apply keeps_raise]; apply evolves_refl.
Qed.

Lemma keeps_logger_error n o : keeps evolves (logger_error n o).
Proof. intros s. apply evolves_logged. Qed.

Lemma keeps_logger_exception e : keeps evolves (logger_exception e).
Proof. intros s. apply evolves_logged. Qed.

(** One syntax-directed step of a frame proof. *)
Ltac keeps_step :=
  first [ apply keeps_bind; [exact evolves_trans | | intros ? ]
        | apply keeps_try_except; [exact evolves_trans | | intros ? ]
        | apply keeps_ret; exact evolves_refl
        | apply keeps_raise; exact evolves_refl
        | apply keeps_lift; exact evolves_refl
        | apply keeps_gets; exact evolves_refl
        | apply keeps_in_world | apply keeps_now | apply keeps_get_name
        | apply keeps_logger_error | apply keeps_logger_exception
        | apply keeps_deref ].

(** ** What [run_check] does *)

Ltac unfold_run_check :=
  cbv [HealthCheck.run_check bind now in_world try_except gets modify ret lift
       logger_exception logger_error get_name deref raise time_time Checker.name].

(** Returning or raising, [run_check] leaves the heap, the registry and the
    aggregator alone and starts exactly one call. *)
Lemma run_check_state timeout checker s :
  let s' := snd (HealthCheck.run_check timeout checker s) in
  heap s' = heap s /\ checkers s' = checkers s /\ hc s' = hc s /\
  invoked s' = (invoked s ++ [checker])%list.
Proof. unfold_run_check. repeat case_match; simplify_eq; simpl in *; done. Qed.

(** [run_check] when the guarded call raised and the adapter answered. *)
Lemma run_check_raised timeout checker c s e w1 v w2 p out :
  heap s !! checker = Some (OChecker c) ->
  guarded timeout (hc s) (call_object (heap s) checker) no_args (tick (world s))
    = (Raise e, w1) ->
  exception_handler (hc s) checker e w1 = (Ok v, w2) ->
  unpack2 v = Ok (p, out) ->
  exists r s', HealthCheck.run_check timeout checker s = (Ok r, s') /\
               CheckResult.passed r = p /\ CheckResult.output r = out.
Proof.
  intros Hobj Hcall Hadapt Hunpack.
  unfold guarded, tick, time_time in Hcall. simpl in Hcall.
  unfold_run_check.
  simpl. rewrite Hcall. simpl. rewrite Hadapt. simpl. rewrite Hunpack. simpl.
  destruct (truthy p); simpl; rewrite ?Hobj; simpl; rewrite ?Hobj; eauto.
Qed.

(** [run_check] when the guarded call returned a pair. *)
Lemma run_check_returned timeout checker c s v w1 p out :
  heap s !! checker = Some (OChecker c) ->
  guarded timeout (hc s) (call_object (heap s) checker) no_args (tick (world s))
    = (Ok v, w1) ->
  unpack2 v = Ok (p, out) ->
  exists r s', HealthCheck.run_check timeout checker s = (Ok r, s') /\
               CheckResult.passed r = p /\ CheckResult.output r = out.
Proof.
  intros Hobj Hcall Hunpack.
  unfold guarded, tick, time_time in Hcall. simpl in Hcall.
  unfold_run_check.
  simpl. rewrite Hcall. simpl. rewrite Hunpack. simpl.
  destruct (truthy p); simpl; rewrite ?Hobj; simpl; rewrite ?Hobj; eauto.
Qed.

(** With the default adapter the [run_check] of a handle always returns. *)
Lemma run_check_total timeout checker c s :
  heap s !! checker = Some (OChecker c) ->
  exception_handler (hc s) = basic_exception_handler ->
  exists r s', HealthCheck.run_check timeout checker s = (Ok r, s').
Proof.
  intros Hobj Hbasic.
  destruct (guarded timeout (hc s) (call_object (heap s) checker) no_args (tick (world s)))
    as [[v|e] w1] eqn:Hcall.
  - destruct (unpack2 v) as [[p out]|e] eqn:Hunpack.
    + destruct (run_check_returned _ _ _ _ _ _ _ _ Hobj Hcall Hunpack) as (r & s' & H & _).
      eauto.
    + unfold guarded, tick, time_time in Hcall. simpl in Hcall.
      unfold_run_check.
      simpl. rewrite Hcall. simpl. rewrite Hunpack. simpl. rewrite Hbasic. simpl.
      rewrite Hobj. simpl. rewrite Hobj. eauto.
  - destruct (run_check_raised timeout checker c s e w1
                (VTuple [VBool false; VStr (exn_str e)]) w1 (VBool false) (VStr (exn_str e)))
      as (r & s' & H & _); eauto.
    by rewrite Hbasic.
Qed.

(** The expiry of a result as [run_check] computes it. *)
Lemma run_check_expires timeout checker s r s' :
  HealthCheck.run_check timeout checker s = (Ok r, s') ->
  CheckResult.expires r =
    (CheckResult.timestamp r +
       (if truthy (CheckResult.passed r)
        then success_ttl (hc s) else failed_ttl (hc s)))%Q.
Proof.
  unfold_run_check.
  intros H. repeat case_match; simplify_eq; simpl in *;
    repeat match goal with H : truthy _ = _ |- _ => rewrite H end;
    solve [reflexivity | congruence].
Qed.

(** C5: every result that run_check builds expires at its timestamp plus
    the success TTL when it passed, plus the failure TTL when it did not;
    and for a Checker handle under the default adapter run_check does build
    a result. *)
Theorem expires_is_timestamp_plus_ttl timeout checker s :
  (forall r s',
      HealthCheck.run_check timeout checker s = (Ok r, s') ->
      CheckResult.expires r =
        (CheckResult.timestamp r +
           (if truthy (CheckResult.passed r)
            then success_ttl (hc s) else failed_ttl (hc s)))%Q) /\
  (forall c,
      heap s !! checker = Some (OChecker c) ->
      exception_handler (hc s) = basic_exception_handler ->
      exists r s', HealthCheck.run_check timeout checker s = (Ok r, s')).
Proof.
  split.
  - intros r s'. apply run_check_expires.
  - intros c. apply run_check_total.
Qed.

Lemma expires_is_timestamp_plus_ttl_witness :
  let r := value no_result (fst (HealthCheck.run_check timeout 1%positive one_probe)) in
  CheckResult.expires r =
    (CheckResult.timestamp r +
       (if truthy (CheckResult.passed r)
        then success_ttl (hc one_probe) else failed_ttl (hc one_probe)))%Q.
Proof.
  apply (proj1 (expires_is_timestamp_plus_ttl timeout 1%positive one_probe) _
           (snd (HealthCheck.run_check timeout 1%positive one_probe))).
  vm_compute. reflexivity.
Defined.

(** ** The frame of [run] *)

Lemma refresh_state timeout checker s :
  let s' := snd (HealthCheck.refresh timeout checker s) in
  heap s' = heap s /\ checkers s' = checkers s /\ config (hc s') = config (hc s) /\
  invoked s' = (invoked s ++ [checker])%list /\
  match fst (HealthCheck.refresh timeout checker s) with
  | Ok r => cache (hc s') = <[checker := r]> (cache (hc s))
  | Raise _ => cache (hc s') = cache (hc s)
  end.
Proof.
  unfold HealthCheck.refresh, bind, modify, ret.
  pose proof (run_check_state timeout checker s) as (Hh & Hc & Ha & Hi).
  destruct (HealthCheck.run_check timeout checker s) as [[r|e] s1]; simpl in *.
  - rewrite Ha. done.
  - rewrite Ha. done.
Qed.


Lemma keeps_refresh timeout checker : keeps evolves (HealthCheck.refresh timeout checker).
Proof.
  intros s. pose proof (refresh_state timeout checker s) as (Hh & Hc & Ha & Hi & Hk).
  split; try done. exists [checker]. split; [done|].
  destruct (fst (HealthCheck.refresh timeout checker s)); rewrite Hk; split; try done.
  - intros k Hs. destruct (decide (checker = k)) as [->|Hne].
    + rewrite lookup_insert_eq. eauto.
    + by rewrite lookup_insert_ne.
  - intros k Hk'. rewrite lookup_insert_ne; [done|]. set_solver.
Qed.

Lemma keeps_cached_or_run timeout checker :
  keeps evolves (HealthCheck.cached_or_run timeout checker).
Proof.
  unfold HealthCheck.cached_or_run.
  keeps_step; [keeps_step|].
  destruct (cache a !! checker).
  - keeps_step; [keeps_step|]. case_match; [keeps_step | apply keeps_refresh].
  - apply keeps_refresh.
Qed.

Lemma keeps_collect_results timeout filtered results :
  keeps evolves (HealthCheck.collect_results timeout filtered results).
Proof.
  revert results. induction filtered as [|o os IH]; intros results; simpl.
  - keeps_step.
  - keeps_step; [apply keeps_cached_or_run | apply IH].
Qed.

Lemma keeps_get_checkers check : keeps evolves (HealthCheckMonitor.get_checkers check).
Proof.
  unfold HealthCheckMonitor.get_checkers, HealthCheckMonitor.get.
  destruct check as [n|]; [case_match|]; repeat keeps_step.
Qed.

Lemma keeps_collect_section entry acc :
  keeps evolves (HealthCheck.collect_section entry acc).
Proof.
  destruct entry as [name [v|f]]; unfold HealthCheck.collect_section; repeat keeps_step.
Qed.

Lemma keeps_collect_sections entries acc :
  keeps evolves (HealthCheck.collect_sections entries acc).
Proof.
  revert acc. induction entries as [|e es IH]; intros acc; simpl.
  - keeps_step.
  - keeps_step; [apply keeps_collect_section | apply IH].
Qed.

Lemma keeps_run timeout check : keeps evolves (HealthCheck.run timeout check).
Proof.
  unfold HealthCheck.run.
  keeps_step; [apply keeps_get_checkers|].
  keeps_step; [apply keeps_collect_results|].
  keeps_step; [keeps_step|].
  keeps_step; [apply keeps_collect_sections|].
  case_match; (keeps_step; [keeps_step|]); (keeps_step; [case_match; keeps_step|]);
    keeps_step.
Qed.

(** C8: run never removes a cache entry and never modifies the registry.
    Whether it returns or raises, the registry is the same afterwards, every
    handle that was cached is still cached, and the only entries that differ
    are those of handles whose probe the run invoked. *)
Theorem run_keeps_cache_and_registry timeout check s :
  let s' := snd (HealthCheck.run timeout check s) in
  checkers s' = checkers s /\
  (forall k, is_Some (cache (hc s) !! k) -> is_Some (cache (hc s') !! k)) /\
  exists new,
    invoked s' = (invoked s ++ new)%list /\
    (forall k, k ∉ new -> cache (hc s') !! k = cache (hc s) !! k).
Proof.
  destruct (keeps_run timeout check s) as [_ Hc _ (new & Hi & Hk & Hf)].
  split; [done|]. split; [done|]. by exists new.
Qed.

Lemma run_keeps_cache_and_registry_witness :
  checkers (snd (HealthCheck.run timeout None two_probes)) = checkers two_probes.
Proof.
  exact (proj1 (run_keeps_cache_and_registry timeout None two_probes)).
Defined.

(** ** The branch [run] takes *)

Lemma get_checkers_pure check s :
  exists filtered, HealthCheckMonitor.get_checkers check s = (Ok filtered, s).
Proof.
  unfold HealthCheckMonitor.get_checkers, HealthCheckMonitor.get, bind, gets, ret.
  destruct check as [n|]; [destruct (negb (String.eqb n ""))|]; simpl; eauto.
Qed.

(** [run] after its two loops: the reduction picks the branch. *)
Lemma run_unfold timeout check s filtered s0 results s1 custom_section s2 :
  HealthCheckMonitor.get_checkers check s = (Ok filtered, s0) ->
  HealthCheck.collect_results timeout filtered [] s0 = (Ok results, s1) ->
  HealthCheck.collect_sections (functions (hc s1)) [] s1 = (Ok custom_section, s2) ->
  HealthCheck.run timeout check s =
    if all_passed results then success_branch results custom_section s2
    else failed_branch results custom_section s2.
Proof.
  intros Hf Hr Hc. unfold HealthCheck.run.
  unfold bind at 1. rewrite Hf.
  unfold bind at 1. rewrite Hr.
  unfold bind at 1, gets at 1. cbn beta iota.
  unfold bind at 1. rewrite Hc.
  rewrite truthy_reduce. cbn [truthy andb].
  destruct (all_passed results).
  - unfold success_branch, bind, gets, ret, in_world.
    destruct (success_handler (hc s2)) as [h|]; [|done].
    by destruct (h results custom_section (world s2)) as [[body|e] w].
  - unfold failed_branch, bind, gets, ret, in_world.
    destruct (failed_handler (hc s2)) as [h|]; [|done].
    by destruct (h results custom_section (world s2)) as [[body|e] w].
Qed.

(** C1: once run has collected its results and custom sections, it returns
    the success branch (the success handler's body, or the literal OK without
    a handler, with success_status and success_headers) when the logical AND
    of the passed fields of all collected results is true, and the failure
    branch otherwise; an empty set of resolved handles collects no result and
    takes the success branch. *)
Theorem run_selects_branch timeout check s filtered s0 results s1 custom_section s2 :
  HealthCheckMonitor.get_checkers check s = (Ok filtered, s0) ->
  HealthCheck.collect_results timeout filtered [] s0 = (Ok results, s1) ->
  HealthCheck.collect_sections (functions (hc s1)) [] s1 = (Ok custom_section, s2) ->
  (all_passed results = true ->
   HealthCheck.run timeout check s = success_branch results custom_section s2) /\
  (all_passed results = false ->
   HealthCheck.run timeout check s = failed_branch results custom_section s2) /\
  (filtered = [] ->
   results = [] /\
   HealthCheck.run timeout check s = success_branch [] custom_section s2).
Proof.
  intros Hf Hr Hc.
  pose proof (run_unfold _ _ _ _ _ _ _ _ _ Hf Hr Hc) as Hrun.
  split; [|split].
  - intros Hp. by rewrite Hrun, Hp.
  - intros Hp. by rewrite Hrun, Hp.
  - intros ->. simpl in Hr. unfold ret in Hr. simplify_eq. done.
Qed.

Lemma run_selects_branch_witness :
  HealthCheck.run timeout None two_probes =
    (Ok (VStr "NOT OK", 500%Z, json_headers),
     snd (HealthCheck.collect_results timeout [1%positive; 2%positive] [] two_probes)).
Proof.
  pose (X := HealthCheck.collect_results timeout [1%positive; 2%positive] [] two_probes).
  destruct (run_selects_branch timeout None two_probes [1%positive; 2%positive] two_probes
              (value [] (fst X)) (snd X) [] (snd X)) as (_ & Hfail & _).
  - vm_compute. reflexivity.
  - vm_compute. reflexivity.
  - vm_compute. reflexivity.
  - rewrite Hfail; [|vm_compute; reflexivity]. vm_compute. reflexivity.
Defined.

(** No probe registered: healthy. *)
Example run_without_probes :
  fst (HealthCheck.run timeout None (empty_state plain_hc ticking))
    = Ok (VStr "OK", 200%Z, json_headers).
Proof. vm_compute. reflexivity. Qed.

(** An unregistered name resolves to nothing: healthy, too. *)
Example run_unknown_selector :
  fst (HealthCheck.run timeout (Some "nope") two_probes)
    = Ok (VStr "OK", 200%Z, json_headers).
Proof. vm_compute. reflexivity. Qed.

(** ** The cache check *)

Lemma cached_or_run_hit timeout checker s entry :
  cache (hc s) !! checker = Some entry ->
  Qle_bool (peek (world s)) (CheckResult.expires entry) = true ->
  HealthCheck.cached_or_run timeout checker s = (Ok entry, set_world (tick (world s)) s).
Proof.
  intros Hc Hle. unfold HealthCheck.cached_or_run, bind, gets, now, in_world; simpl.
  rewrite Hc. unfold peek in Hle. by rewrite Hle.
Qed.

Lemma cached_or_run_stale timeout checker s entry :
  cache (hc s) !! checker = Some entry ->
  Qle_bool (peek (world s)) (CheckResult.expires entry) = false ->
  HealthCheck.cached_or_run timeout checker s =
    HealthCheck.refresh timeout checker (set_world (tick (world s)) s).
Proof.
  intros Hc Hle. unfold HealthCheck.cached_or_run, bind, gets, now, in_world; simpl.
  rewrite Hc. unfold peek in Hle. by rewrite Hle.
Qed.

Lemma cached_or_run_absent timeout checker s :
  cache (hc s) !! checker = None ->
  HealthCheck.cached_or_run timeout checker s = HealthCheck.refresh timeout checker s.
Proof.
  intros Hc. unfold HealthCheck.cached_or_run, bind, gets; simpl. by rewrite Hc.
Qed.



(** Two calls of run a few seconds apart execute a passing probe once; a call
    more than 27 seconds later executes it again. *)
Example passing_probe_executed_once :
  let s1 := snd (HealthCheck.run timeout None one_probe) in
  invoked s1 = [1%positive] /\
  invoked (snd (HealthCheck.run timeout None s1)) = [1%positive] /\
  invoked (snd (HealthCheck.run timeout None
                  (set_world {| reads := 40; clock := clock ticking |} s1)))
    = [1%positive; 1%positive].
Proof. vm_compute. repeat split; reflexivity. Qed.

(** ** Failures and the cache *)

(** C6: with failed_ttl = 0, a failing result that run_check built is served
    from the cache only at a clock reading that is not later than the
    result's timestamp; whenever run reaches the handle at a strictly later
    clock reading the probe is invoked again. *)
Theorem failed_ttl_zero_reinvoked_once_clock_moves timeout checker s r s1 s2 :
  (failed_ttl (hc s) == 0)%Q ->
  HealthCheck.run_check timeout checker s = (Ok r, s1) ->
  truthy (CheckResult.passed r) = false ->
  cache (hc s2) !! checker = Some r ->
  ((CheckResult.timestamp r < peek (world s2))%Q ->
   invoked (snd (HealthCheck.cached_or_run timeout checker s2))
     = (invoked s2 ++ [checker])%list) /\
  ((peek (world s2) <= CheckResult.timestamp r)%Q ->
   HealthCheck.cached_or_run timeout checker s2 = (Ok r, set_world (tick (world s2)) s2)).
Proof.
  intros Httl Hrun Hfail Hc.
  pose proof (run_check_expires _ _ _ _ _ Hrun) as Hexp. rewrite Hfail in Hexp.
  split.
  - intros Hlt.
    rewrite (cached_or_run_stale timeout checker s2 r Hc).
    + by pose proof (refresh_state timeout checker (set_world (tick (world s2)) s2))
        as (_ & _ & _ & Hi & _).
    + apply Qle_bool_false. rewrite Hexp. lra.
  - intros Hle. apply cached_or_run_hit; [done|].
    apply Qle_bool_iff. rewrite Hexp. lra.
Qed.

Lemma failed_ttl_zero_reinvoked_once_clock_moves_witness :
  let first := HealthCheck.refresh timeout 1%positive frozen_failing in
  let s2 := set_world (advance 5 frozen) (snd first) in
  invoked (snd (HealthCheck.cached_or_run timeout 1%positive s2))
    = (invoked s2 ++ [1%positive])%list.
Proof.
  intros first s2.
  apply (proj1 (failed_ttl_zero_reinvoked_once_clock_moves timeout 1%positive
                  frozen_failing (value no_result (fst first))
                  (snd (HealthCheck.run_check timeout 1%positive frozen_failing)) s2
                  ltac:(vm_compute; reflexivity) ltac:(vm_compute; reflexivity)
                  ltac:(vm_compute; reflexivity) ltac:(vm_compute; reflexivity))).
  vm_compute. reflexivity.
Defined.

(** [time.time()] need not advance between two calls (a coarse platform
    clock, or a clock that was set back).  The clock of [frozen_failing]
    reads the same at every call: the second run finds the failing result of
    the first still unexpired (its expiry equals its timestamp, and the test
    is [>=]) and does not invoke the probe, although failed_ttl is 0. *)
Lemma failed_ttl_zero_served_from_cache :
  let s1 := snd (HealthCheck.run timeout None frozen_failing) in
  let s2 := snd (HealthCheck.run timeout None s1) in
  failed_ttl (hc frozen_failing) = 0%Q /\
  fst (HealthCheck.run timeout None frozen_failing)
    = Ok (VStr "NOT OK", 500%Z, json_headers) /\
  invoked s1 = [1%positive] /\
  fst (HealthCheck.run timeout None s1) = Ok (VStr "NOT OK", 500%Z, json_headers) /\
  invoked s2 = [1%positive].
Proof. vm_compute. repeat split; reflexivity. Qed.

(** ** Custom sections *)

Lemma collect_section_get name func acc s :
  exists cs s',
    HealthCheck.collect_section (name, func) acc s = (Ok cs, s') /\
    dict_get name cs =
      match section_outcome func (world s) with
      | Some v => Some v
      | None => dict_get name acc
      end /\
    forall k, k ≠ name -> dict_get k cs = dict_get k acc.
Proof.
  destruct func as [v|f];
    unfold HealthCheck.collect_section, try_except, bind, ret, in_world, section_outcome;
    simpl.
  - eexists _, _. split; [done|]. split; [apply dict_get_set_eq|].
    intros k Hk. by apply dict_get_set_ne.
  - destruct (code f no_args (world s)) as [[v|e] w]; simpl.
    + eexists _, _. split; [done|]. split; [apply dict_get_set_eq|].
      intros k Hk. by apply dict_get_set_ne.
    + eexists _, _. split; [done|]. done.
Qed.

(** The loop never raises. *)
Lemma collect_sections_total entries acc s :
  exists cs s', HealthCheck.collect_sections entries acc s = (Ok cs, s').
Proof.
  revert acc s. induction entries as [|[name func] rest IH]; intros acc s;
    cbn [HealthCheck.collect_sections].
  - unfold ret. eauto.
  - unfold bind. destruct (collect_section_get name func acc s) as (cs & s' & -> & _).
    apply IH.
Qed.

(** Entries under other names leave a name alone. *)
Lemma collect_sections_other entries acc s k :
  k ∉ dict_keys entries ->
  exists cs s',
    HealthCheck.collect_sections entries acc s = (Ok cs, s') /\
    dict_get k cs = dict_get k acc.
Proof.
  revert acc s. induction entries as [|[name func] rest IH]; intros acc s Hk;
    cbn [HealthCheck.collect_sections].
  - by exists acc, s.
  - unfold dict_keys in Hk. simpl in Hk. apply not_elem_of_cons in Hk as [Hne Hk].
    destruct (collect_section_get name func acc s) as (cs1 & s1 & Hstep & _ & Hother).
    destruct (IH cs1 s1 Hk) as (cs & s' & Hrest & Hget).
    exists cs, s'. unfold bind. rewrite Hstep. split; [done|].
    rewrite Hget. by apply Hother.
Qed.

Lemma collect_sections_app pre post acc s :
  HealthCheck.collect_sections (pre ++ post) acc s =
    match HealthCheck.collect_sections pre acc s with
    | (Ok cs, s1) => HealthCheck.collect_sections post cs s1
    | (Raise e, s1) => (Raise e, s1)
    end.
Proof.
  revert acc s. induction pre as [|entry pre IH]; intros acc s;
    cbn [HealthCheck.collect_sections app]; [done|].
  unfold bind. destruct (HealthCheck.collect_section entry acc s) as [[cs|e] s1]; [|done].
  apply IH.
Qed.

(** C7: collecting the custom sections never raises.  A static value is in
    the collected sections under its name, unchanged; a provider is called
    with no arguments, in the world the entries before it left, and its
    return value is there under its name; when the provider raises, its name
    is absent from the collected sections. *)
Theorem custom_sections_collected pre name func post s :
  NoDup (dict_keys (pre ++ (name, func) :: post)) ->
  exists custom_section s',
    HealthCheck.collect_sections (pre ++ (name, func) :: post) [] s
      = (Ok custom_section, s') /\
    dict_get name custom_section =
      match func with
      | Static v => Some v
      | Provider f =>
          match fst (code f no_args (world (snd (HealthCheck.collect_sections pre [] s)))) with
          | Ok v => Some v
          | Raise _ => None
          end
      end.
Proof.
  intros Hnodup. unfold dict_keys in Hnodup. rewrite map_app in Hnodup. simpl in Hnodup.
  apply NoDup_app in Hnodup as (_ & Hpre & Hpost).
  apply NoDup_cons in Hpost as [Hpost _].
  assert (name ∉ dict_keys pre) as Hpre'.
  { intros Hin. apply (Hpre name Hin). left. }
  rewrite collect_sections_app.
  destruct (collect_sections_other pre [] s name Hpre') as (cs0 & s0 & Hcs0 & Hget0).
  rewrite Hcs0. cbn [HealthCheck.collect_sections snd].
  destruct (collect_section_get name func cs0 s0) as (cs1 & s1 & Hstep & Hget1 & _).
  destruct (collect_sections_other post cs1 s1 name Hpost) as (cs & s' & Hrest & Hget).
  exists cs, s'. unfold bind. rewrite Hstep. split; [done|].
  rewrite Hget, Hget1. unfold section_outcome.
  destruct func as [v|f]; [done|].
  destruct (fst (code f no_args (world s0))); [done|]. by rewrite Hget0.
Qed.

Lemma custom_sections_collected_witness :
  exists custom_section s',
    HealthCheck.collect_sections some_sections [] one_probe = (Ok custom_section, s') /\
    dict_get "uptime" custom_section = None.
Proof.
  apply (custom_sections_collected
           [("version", Static (VStr "1.0"))]
           "uptime"
           (Provider {| __name__ := "uptime"; code := raises (Exn "OSError" "no /proc") |})
           [("build", Provider {| __name__ := "build"; code := returns (VNum 42) |})]
           one_probe).
  apply (bool_decide_unpack _). vm_compute. exact I.
Defined.

(** The three sections at work: the static value and the returning provider
    are collected, the raising provider is not. *)
Example sections_of_some_sections :
  fst (HealthCheck.collect_sections some_sections [] one_probe)
    = Ok [("version", VStr "1.0"); ("build", VNum 42)].
Proof. vm_compute. reflexivity. Qed.

(** ** A probe that raises *)

Section RaisingProbe.
Variable timeout : Q -> string -> callable -> callable.
Variable checker : oid.
Variable e : exn.



End RaisingProbe.



(** The run of [boom_probes], evaluated: the failure branch, the adapter's
    result in the cache, the exception and the failure in the log. *)
Example run_of_boom_probes :
  let s' := snd (HealthCheck.run timeout None boom_probes) in
  fst (HealthCheck.run timeout None boom_probes)
    = Ok (VStr "NOT OK", 500%Z, json_headers) /\
  (CheckResult.passed <$> cache (hc s') !! 2%positive) = Some (VBool false) /\
  (CheckResult.output <$> cache (hc s') !! 2%positive) = Some (VStr "boom") /\
  logged s' = [LogException (ValueError "boom"); LogError (Some "disk") (VStr "boom")].
Proof. vm_compute. repeat split; reflexivity. Qed.

(** ** The timeout *)

(** The guard that produces the synthetic pair itself. *)
Lemma run_check_timeout checker c s :
  heap s !! checker = Some (OChecker c) ->
  (0 < error_timeout (hc s))%Q ->
  exceeds_deadline s checker (error_timeout (hc s)) ->
  exists r s',
    HealthCheck.run_check timeout checker s = (Ok r, s') /\
    CheckResult.passed r = VBool false /\
    CheckResult.output r = VStr "Timeout error!".
Proof.
  intros Hobj Hpos Hlate.
  apply Qlt_bool_true in Hpos. unfold exceeds_deadline in Hlate.
  apply Qlt_bool_true in Hlate.
  eapply run_check_returned with (v := VTuple [VBool false; VStr "Timeout error!"]);
    [exact Hobj | | reflexivity].
  unfold guarded. rewrite Hpos. unfold timeout.
  destruct (call_object (heap s) checker no_args (tick (world s))) as [r w'].
  cbn [snd] in Hlate. by rewrite Hlate.
Qed.

(** The guard that raises: the default adapter makes the same pair of it. *)
Lemma run_check_timeout_raising checker c s :
  heap s !! checker = Some (OChecker c) ->
  (0 < error_timeout (hc s))%Q ->
  exceeds_deadline s checker (error_timeout (hc s)) ->
  exception_handler (hc s) = basic_exception_handler ->
  exists r s',
    HealthCheck.run_check timeout_raising checker s = (Ok r, s') /\
    CheckResult.passed r = VBool false /\
    CheckResult.output r = VStr "Timeout error!".
Proof.
  intros Hobj Hpos Hlate Hbasic.
  apply Qlt_bool_true in Hpos. unfold exceeds_deadline in Hlate.
  apply Qlt_bool_true in Hlate.
  eapply run_check_raised with (e := Exn "TimeoutError" "Timeout error!");
    [exact Hobj | | by rewrite Hbasic | reflexivity].
  unfold guarded. rewrite Hpos. unfold timeout_raising.
  destruct (call_object (heap s) checker no_args (tick (world s))) as [r w'].
  cbn [snd] in Hlate. by rewrite Hlate.
Qed.

(** C4: with a positive error_timeout, when the invocation of a Checker
    handle outlasts the deadline, run_check builds a result with passed False
    and output Timeout error! in place of what the probe returns.  This holds
    when the guard produces the synthetic pair itself, whatever the adapter;
    and when the guard signals the timeout by an exception that carries the
    message, it holds under the default adapter. *)
Theorem timeout_yields_synthetic_result checker c s :
  heap s !! checker = Some (OChecker c) ->
  (0 < error_timeout (hc s))%Q ->
  exceeds_deadline s checker (error_timeout (hc s)) ->
  (exists r s',
      HealthCheck.run_check timeout checker s = (Ok r, s') /\
      CheckResult.passed r = VBool false /\
      CheckResult.output r = VStr "Timeout error!") /\
  (exception_handler (hc s) = basic_exception_handler ->
   exists r s',
     HealthCheck.run_check timeout_raising checker s = (Ok r, s') /\
     CheckResult.passed r = VBool false /\
     CheckResult.output r = VStr "Timeout error!").
Proof.
  intros Hobj Hpos Hlate. split.
  - by eapply run_check_timeout.
  - intros Hbasic. by eapply run_check_timeout_raising.
Qed.

Lemma timeout_yields_synthetic_result_witness :
  exists r s',
    HealthCheck.run_check timeout 1%positive slow_probe = (Ok r, s') /\
    CheckResult.passed r = VBool false /\
    CheckResult.output r = VStr "Timeout error!".
Proof.
  apply (timeout_yields_synthetic_result 1%positive
           {| _name := Some "slow"; _wrapped := Some (wrapper_of probe_slow) |} slow_probe).
  - vm_compute. reflexivity.
  - vm_compute. reflexivity.
  - vm_compute. reflexivity.
Defined.

(** The probe that sleeps one second under error_timeout = 0.01, with either
    guard. *)
Example run_of_slow_probe :
  let s' := snd (HealthCheck.run timeout None slow_probe) in
  let s'' := snd (HealthCheck.run timeout_raising None slow_probe) in
  fst (HealthCheck.run timeout None slow_probe)
    = Ok (VStr "NOT OK", 500%Z, json_headers) /\
  (CheckResult.output <$> cache (hc s') !! 1%positive) = Some (VStr "Timeout error!") /\
  fst (HealthCheck.run timeout_raising None slow_probe)
    = Ok (VStr "NOT OK", 500%Z, json_headers) /\
  (CheckResult.output <$> cache (hc s'') !! 1%positive) = Some (VStr "Timeout error!").
Proof. vm_compute. repeat split; reflexivity. Qed.

(** ** Registration *)

Lemma decorate_spec self c function s :
  heap s !! self = Some (OChecker c) ->
  exists s',
    Checker.decorate self function s = (Ok (wrapper_of function), s') /\
    let n := match _name c with Some n => Some n | None => Some (__name__ function) end in
    heap s' !! self =
      Some (OChecker {| _name := n; _wrapped := Some (wrapper_of function) |}) /\
    dict_get n (checkers s') = Some self.
Proof.
  intros Hobj.
  cbv [Checker.decorate Checker.this HealthCheckMonitor.register bind deref store modify
       ret raise].
  rewrite Hobj. destruct c as [[n|] wrapped]; simpl.
  - rewrite Hobj. simpl. rewrite Hobj. eexists. split; [done|]. simpl.
    split; [apply lookup_insert_eq | apply dict_get_set_eq].
  - rewrite !lookup_insert_eq. simpl. rewrite lookup_insert_eq. eexists.
    split; [done|]. simpl.
    split; [apply lookup_insert_eq | apply dict_get_set_eq].
Qed.

Lemma alloc_spec x s :
  let o := fresh (dom (heap s)) in
  alloc x s = (Ok o, set_heap (<[o := x]> (heap s)) s).
Proof. done. Qed.

(** Keywords that name no filled parameter bind. *)
Lemma multiple_values_None qualname params kw :
  (forall p, p ∈ params -> p ∉ dict_keys kw) ->
  multiple_values qualname params kw = None.
Proof.
  intros Hfree. unfold multiple_values.
  destruct (List.find _ kw) as [kv|] eqn:Hfind; [|done].
  apply find_some in Hfind as [Hin Hp]. apply bool_decide_eq_true in Hp.
  exfalso. apply (Hfree _ Hp). unfold dict_keys. apply list_elem_of_fmap.
  exists kv. split; [done|]. by apply list_elem_of_In.
Qed.

(** A keyword that names a filled parameter does not. *)
Lemma multiple_values_Some qualname params kw p :
  p ∈ params -> p ∈ dict_keys kw ->
  exists msg, multiple_values qualname params kw = Some (TypeError msg).
Proof.
  intros Hp Hk. unfold multiple_values.
  destruct (List.find _ kw) as [kv|] eqn:Hfind; [eauto|].
  exfalso. unfold dict_keys in Hk. apply list_elem_of_fmap in Hk as (kv & -> & Hin).
  apply list_elem_of_In in Hin. pose proof (find_none _ _ Hfind kv Hin) as Hf.
  simpl in Hf. by apply bool_decide_eq_false in Hf.
Qed.

Lemma forwardable_no_args : forwardable no_args.
Proof. split; apply not_elem_of_nil. Qed.

Lemma wrapper_forwards f a w : forwardable a -> code (wrapper_of f) a w = code f a w.
Proof.
  intros [Hself Hfunc]. simpl. unfold Checker._call.
  rewrite multiple_values_None; [done|].
  intros p Hp. apply elem_of_cons in Hp as [->|Hp]; [done|].
  by apply list_elem_of_singleton in Hp as ->.
Qed.

(** The condition is sharp: any other call is rejected before [f] runs. *)
Lemma wrapper_rejects f a w :
  ~ forwardable a ->
  exists msg, code (wrapper_of f) a w = (Raise (TypeError msg), w).
Proof.
  intros Hno. simpl. unfold Checker._call.
  destruct (decide ("self" ∈ dict_keys (kwargs a))) as [Hs|Hs].
  - destruct (multiple_values_Some "Checker._call" ["self"; "func"] (kwargs a) "self")
      as [msg ->]; [left|done|eauto].
  - destruct (decide ("func" ∈ dict_keys (kwargs a))) as [Hf|Hf].
    + destruct (multiple_values_Some "Checker._call" ["self"; "func"] (kwargs a) "func")
        as [msg ->]; [right; left|done|eauto].
    + exfalso. apply Hno. by split.
Qed.

(** A decorated handle, called. *)
Lemma handle_forwards h o n f a w :
  h !! o = Some (OChecker {| _name := n; _wrapped := Some (wrapper_of f) |}) ->
  forwardable a ->
  call_object h o a w = code f a w.
Proof.
  intros Hobj Hfw. unfold call_object. rewrite Hobj.
  unfold Checker.__call__, Checker.call. cbn [_wrapped].
  assert (multiple_values "Checker.__call__" ["self"] (kwargs a) = None) as ->.
  { apply multiple_values_None. intros p Hp.
    apply list_elem_of_singleton in Hp as ->. apply Hfw. }
  assert (multiple_values "Checker.call" ["self"] (kwargs a) = None) as ->.
  { apply multiple_values_None. intros p Hp.
    apply list_elem_of_singleton in Hp as ->. apply Hfw. }
  by apply wrapper_forwards.
Qed.

(** C10 (as amended): for arguments with no keyword named self or func, the
    wrapper that registering f returns forwards the call to f and returns
    what f does (its value or its exception, and the world f leaves), and so
    does calling the registered handle; this holds for Checker.decorate(f)
    on any Checker instance, for checker(f), which registers the handle
    under the name of f, and for checker(name=n)(f), which registers it
    under n. *)
Theorem registered_wrapper_forwards (f : pyfunc) (s : State) :
  (forall self c,
      heap s !! self = Some (OChecker c) ->
      exists w s',
        Checker.decorate self f s = (Ok w, s') /\
        (forall a wd, forwardable a -> code w a wd = code f a wd) /\
        (forall a wd, forwardable a -> call_object (heap s') self a wd = code f a wd)) /\
  (exists w s' self,
      checker (ArgFunction f) s = (Ok (Wrapper w), s') /\
      (forall a wd, forwardable a -> code w a wd = code f a wd) /\
      dict_get (Some (__name__ f)) (checkers s') = Some self /\
      (forall a wd, forwardable a -> call_object (heap s') self a wd = code f a wd)) /\
  (forall n,
      exists self s1 w s',
        checker (ArgName n) s = (Ok (Decorator self), s1) /\
        Checker.decorate self f s1 = (Ok w, s') /\
        (forall a wd, forwardable a -> code w a wd = code f a wd) /\
        dict_get (Some n) (checkers s') = Some self /\
        (forall a wd, forwardable a -> call_object (heap s') self a wd = code f a wd)).
Proof.
  split; [|split].
  - intros self c Hobj.
    destruct (decorate_spec self c f s Hobj) as (s' & Hdec & Hheap & _).
    exists (wrapper_of f), s'. split; [done|]. split.
    + intros a wd. apply wrapper_forwards.
    + intros a wd. intros Hfw. by eapply handle_forwards.
  - unfold checker, Checker.__init__, bind. rewrite alloc_spec.
    set (self := fresh (dom (heap s))).
    set (s0 := set_heap _ s).
    destruct (decorate_spec self {| _name := None; _wrapped := None |} f s0)
      as (s' & Hdec & Hheap & Hreg).
    { apply lookup_insert_eq. }
    rewrite Hdec. exists (wrapper_of f), s', self. split; [done|].
    split; [intros a wd; apply wrapper_forwards|].
    split; [exact Hreg|].
    intros a wd. intros Hfw. by eapply handle_forwards.
  - intros n. unfold checker, Checker.__init__, bind. rewrite alloc_spec.
    set (self := fresh (dom (heap s))).
    set (s0 := set_heap _ s).
    destruct (decorate_spec self {| _name := Some n; _wrapped := None |} f s0)
      as (s' & Hdec & Hheap & Hreg).
    { apply lookup_insert_eq. }
    exists self, s0, (wrapper_of f), s'. split; [done|]. split; [done|].
    split; [intros a wd; apply wrapper_forwards|].
    split; [exact Hreg|].
    intros a wd. intros Hfw. by eapply handle_forwards.
Qed.

Lemma registered_wrapper_forwards_witness :
  exists w s',
    Checker.decorate 1%positive probe_boom bare_checker = (Ok w, s') /\
    (forall a wd, forwardable a -> code w a wd = code probe_boom a wd) /\
    (forall a wd, forwardable a ->
                  call_object (heap s') 1%positive a wd = code probe_boom a wd).
Proof.
  apply (proj1 (registered_wrapper_forwards probe_boom bare_checker) 1%positive
           {| _name := Some "db"; _wrapped := None |}).
  vm_compute. reflexivity.
Defined.

(** The methods between a handle and its function take [self] and [func]
    themselves.  [probe_ok] accepts any arguments and returns its pair; once
    it is registered with [checker], a call with a keyword named func, or
    self, raises [TypeError] in the wrapper and in the registered handle, and
    the function is not reached. *)
Lemma wrapper_rejects_keywords_func_and_self :
  let s := empty_state plain_hc ticking in
  let w := wrapper_of probe_ok in
  let s' := snd (checker (ArgFunction probe_ok) s) in
  checker (ArgFunction probe_ok) s = (Ok (Wrapper w), s') /\
  dict_get (Some "db") (checkers s') = Some 1%positive /\
  code probe_ok keyword_func ticking = (Ok (VTuple [VBool true; VStr "fine"]), ticking) /\
  code probe_ok keyword_self ticking = (Ok (VTuple [VBool true; VStr "fine"]), ticking) /\
  (exists msg, code w keyword_func ticking = (Raise (TypeError msg), ticking)) /\
  (exists msg, code w keyword_self ticking = (Raise (TypeError msg), ticking)) /\
  (exists msg, call_object (heap s') 1%positive keyword_func ticking
               = (Raise (TypeError msg), ticking)) /\
  (exists msg, call_object (heap s') 1%positive keyword_self ticking
               = (Raise (TypeError msg), ticking)).
Proof.
  vm_compute. repeat split; try reflexivity; eexists; reflexivity.
Qed.

(** * Further properties *)

(** ** What a run invokes *)

Lemma quiet_refl s : quiet s s.
Proof. by repeat split. Qed.

Lemma quiet_trans s1 s2 s3 : quiet s1 s2 -> quiet s2 s3 -> quiet s1 s3.
Proof. intros (?&?&?&?) (?&?&?&?). repeat split; congruence. Qed.

Lemma quiet_in_world {A} (f : World -> result A * World) : keeps quiet (in_world f).
Proof. intros s. unfold in_world. by destruct (f (world s)). Qed.

Lemma quiet_collect_section entry acc : keeps quiet (HealthCheck.collect_section entry acc).
Proof.
  destruct entry as [name [v|f]]; unfold HealthCheck.collect_section.
  - apply keeps_try_except; [exact quiet_trans | |intros ?]; apply keeps_ret, quiet_refl.
  - apply keeps_try_except; [exact quiet_trans | |intros ?; apply keeps_ret, quiet_refl].
    apply keeps_bind; [exact quiet_trans | apply quiet_in_world |].
    intros ?. apply keeps_ret, quiet_refl.
Qed.

Lemma quiet_collect_sections entries acc : keeps quiet (HealthCheck.collect_sections entries acc).
Proof.
  revert acc. induction entries as [|e es IH]; intros acc; simpl.
  - apply keeps_ret, quiet_refl.
  - apply keeps_bind; [exact quiet_trans | apply quiet_collect_section | apply IH].
Qed.

Lemma quiet_success_branch results cs : keeps quiet (success_branch results cs).
Proof.
  intros s. unfold success_branch. destruct (success_handler (hc s)) as [h|]; [|apply quiet_refl].
  by destruct (h results cs (world s)) as [[b|e] w].
Qed.

Lemma quiet_failed_branch results cs : keeps quiet (failed_branch results cs).
Proof.
  intros s. unfold failed_branch. destruct (failed_handler (hc s)) as [h|]; [|apply quiet_refl].
  by destruct (h results cs (world s)) as [[b|e] w].
Qed.

(** [run] in terms of its first loop. *)
Lemma run_after_results timeout check s filtered :
  HealthCheckMonitor.get_checkers check s = (Ok filtered, s) ->
  match HealthCheck.collect_results timeout filtered [] s with
  | (Ok results, s1) =>
      exists cs s2,
        HealthCheck.collect_sections (functions (hc s1)) [] s1 = (Ok cs, s2) /\
        quiet s1 s2 /\
        HealthCheck.run timeout check s =
          (if all_passed results then success_branch results cs s2
           else failed_branch results cs s2) /\
        quiet s1 (snd (HealthCheck.run timeout check s))
  | (Raise e, s1) => HealthCheck.run timeout check s = (Raise e, s1)
  end.
Proof.
  intros Hf.
  destruct (HealthCheck.collect_results timeout filtered [] s) as [[results|e] s1] eqn:Hr.
  - destruct (collect_sections_total (functions (hc s1)) [] s1) as (cs & s2 & Hcs).
    exists cs, s2. split; [done|].
    pose proof (quiet_collect_sections (functions (hc s1)) [] s1) as Hq.
    rewrite Hcs in Hq. simpl in Hq. split; [done|].
    rewrite (run_unfold _ _ _ _ _ _ _ _ _ Hf Hr Hcs). split; [done|].
    eapply quiet_trans; [exact Hq|].
    destruct (all_passed results); [apply quiet_success_branch | apply quiet_failed_branch].
  - unfold HealthCheck.run. unfold bind at 1. rewrite Hf. unfold bind at 1. by rewrite Hr.
Qed.

(** The first loop: one result per handle, each handle invoked at most once. *)
Lemma collect_results_shape timeout filtered acc s :
  let out := HealthCheck.collect_results timeout filtered acc s in
  (exists new, invoked (snd out) = (invoked s ++ new)%list /\ new `sublist_of` filtered) /\
  (forall results, fst out = Ok results ->
     length results = (length acc + length filtered)%nat /\
     forall o, o ∈ filtered -> is_Some (cache (hc (snd out)) !! o)).
Proof.
  revert acc s. induction filtered as [|o rest IH]; intros acc s; simpl.
  - split.
    + exists []. by rewrite app_nil_r.
    + intros results [= <-]. split; [lia|]. intros o Ho. by apply elem_of_nil in Ho.
  - unfold bind.
    assert (exists n1, invoked (snd (HealthCheck.cached_or_run timeout o s))
                         = (invoked s ++ n1)%list /\ n1 `sublist_of` [o] /\
              (forall r, fst (HealthCheck.cached_or_run timeout o s) = Ok r ->
                         is_Some (cache (hc (snd (HealthCheck.cached_or_run timeout o s))) !! o)))
      as (n1 & Hn1 & Hsub1 & Hc1).
    { destruct (cache (hc s) !! o) as [entry|] eqn:Hc.
      - destruct (Qle_bool (peek (world s)) (CheckResult.expires entry)) eqn:Hle.
        + rewrite (cached_or_run_hit _ _ _ _ Hc Hle). exists []. simpl.
          rewrite app_nil_r. split; [done|]. split; [apply sublist_nil_l|].
          intros _ _. by rewrite Hc.
        + rewrite (cached_or_run_stale _ _ _ _ Hc Hle).
          pose proof (refresh_state timeout o (set_world (tick (world s)) s))
            as (_ & _ & _ & Hi & Hk).
          exists [o]. split; [done|]. split; [done|].
          intros r Hr. rewrite Hr in Hk. rewrite Hk, lookup_insert_eq. eauto.
      - rewrite (cached_or_run_absent _ _ _ Hc).
        pose proof (refresh_state timeout o s) as (_ & _ & _ & Hi & Hk).
        exists [o]. split; [done|]. split; [done|].
        intros r Hr. rewrite Hr in Hk. rewrite Hk, lookup_insert_eq. eauto. }
    destruct (HealthCheck.cached_or_run timeout o s) as [[r|e] s1] eqn:Hstep; simpl in *.
    + destruct (IH (acc ++ [r])%list s1) as ((n2 & Hn2 & Hsub2) & Hres).
      split.
      * exists (n1 ++ n2)%list. rewrite Hn2, Hn1, app_assoc. split; [done|].
        by apply (sublist_app n1 [o] n2 rest).
      * intros results Hok. destruct (Hres results Hok) as [Hlen Hcached].
        split; [rewrite Hlen, length_app; simpl; lia|].
        intros o' Ho'. apply elem_of_cons in Ho' as [->|Ho']; [|by apply Hcached].
        pose proof (keeps_collect_results timeout rest (acc ++ [r])%list s1)
          as [_ _ _ (new & _ & Hkeep & _)].
        apply Hkeep. by apply (Hc1 r).
    + split; [|done]. exists n1. split; [done|].
      apply sublist_inserts_r with (k := rest) in Hsub1. exact Hsub1.
Qed.

(** X1: within one run, the probes that are invoked are resolved handles,
    each at most once per registry entry and in resolution order; this holds
    whether run returns or raises. *)
Theorem run_invokes_each_handle_at_most_once timeout check s filtered :
  HealthCheckMonitor.get_checkers check s = (Ok filtered, s) ->
  exists new,
    invoked (snd (HealthCheck.run timeout check s)) = (invoked s ++ new)%list /\
    new `sublist_of` filtered.
Proof.
  intros Hf. pose proof (run_after_results timeout check s filtered Hf) as Hrun.
  destruct (collect_results_shape timeout filtered [] s) as ((new & Hi & Hsub) & _).
  exists new. split; [|done].
  destruct (HealthCheck.collect_results timeout filtered [] s) as [[results|e] s1].
  - destruct Hrun as (cs & s2 & _ & _ & _ & (_ & _ & _ & Hq)). by rewrite Hq.
  - by rewrite Hrun.
Qed.

Lemma run_invokes_each_handle_at_most_once_witness :
  exists new,
    invoked (snd (HealthCheck.run timeout None two_probes))
      = (invoked two_probes ++ new)%list /\
    new `sublist_of` [1%positive; 2%positive].
Proof.
  apply (run_invokes_each_handle_at_most_once timeout None two_probes
           [1%positive; 2%positive]).
  vm_compute. reflexivity.
Defined.

(** X2: when run returns, the formatter was given exactly one result per
    resolved handle, and every resolved handle has a cache entry
    afterwards. *)
Theorem run_gives_one_result_per_handle timeout check s filtered body :
  HealthCheckMonitor.get_checkers check s = (Ok filtered, s) ->
  fst (HealthCheck.run timeout check s) = Ok body ->
  (exists results custom_section s2,
      HealthCheck.run timeout check s =
        (if all_passed results then success_branch results custom_section s2
         else failed_branch results custom_section s2) /\
      length results = length filtered) /\
  (forall o, o ∈ filtered ->
             is_Some (cache (hc (snd (HealthCheck.run timeout check s))) !! o)).
Proof.
  intros Hf Hok. pose proof (run_after_results timeout check s filtered Hf) as Hrun.
  destruct (collect_results_shape timeout filtered [] s) as (_ & Hres).
  destruct (HealthCheck.collect_results timeout filtered [] s) as [[results|e] s1].
  - destruct Hrun as (cs & s2 & _ & _ & Hrun & (_ & _ & Hhc & _)).
    destruct (Hres results eq_refl) as [Hlen Hcached]. split.
    + exists results, cs, s2. by split.
    + intros o Ho. rewrite Hhc. by apply Hcached.
  - rewrite Hrun in Hok. done.
Qed.

Lemma run_gives_one_result_per_handle_witness :
  is_Some (cache (hc (snd (HealthCheck.run timeout None two_probes))) !! 2%positive).
Proof.
  apply (proj2 (run_gives_one_result_per_handle timeout None two_probes
                  [1%positive; 2%positive] (VStr "NOT OK", 500%Z, json_headers)
                  ltac:(vm_compute; reflexivity) ltac:(vm_compute; reflexivity))).
  right. left.
Defined.

Lemma collect_results_all_fresh timeout filtered acc s :
  (forall o, o ∈ filtered ->
     exists entry, cache (hc s) !! o = Some entry /\
                   forall n, (clock (world s) n <= CheckResult.expires entry)%Q) ->
  HealthCheck.collect_results timeout filtered acc s =
    (Ok (acc ++ cached_entries s filtered)%list,
     set_world {| reads := reads (world s) + length filtered; clock := clock (world s) |} s).
Proof.
  revert acc s. induction filtered as [|o rest IH]; intros acc s Hfresh; simpl.
  - unfold ret, cached_entries. simpl. rewrite app_nil_r, Nat.add_0_r.
    by destruct s as [? ? ? [? ?] ? ?].
  - destruct (Hfresh o) as (entry & Hc & Hle); [left|].
    unfold bind. rewrite (cached_or_run_hit timeout o s entry Hc).
    2:{ apply Qle_bool_iff. apply Hle. }
    rewrite IH.
    + change (cached_entries (set_world (tick (world s)) s) rest)
        with (cached_entries s rest).
      unfold cached_entries at 2. simpl. rewrite Hc. simpl. rewrite <- app_assoc. simpl.
      f_equal. unfold set_world. simpl. f_equal. f_equal. lia.
    + intros o' Ho'. simpl. apply Hfresh. by right.
Qed.

(** X3: when every resolved handle has a cache entry that no reading of the
    clock outlasts, run invokes no probe, leaves the cache as it is and
    formats the cached entries, in resolution order. *)
Theorem run_on_fresh_cache_invokes_nothing timeout check s filtered :
  HealthCheckMonitor.get_checkers check s = (Ok filtered, s) ->
  (forall o, o ∈ filtered ->
     exists entry, cache (hc s) !! o = Some entry /\
                   forall n, (clock (world s) n <= CheckResult.expires entry)%Q) ->
  exists custom_section s2,
    HealthCheck.run timeout check s =
      (if all_passed (cached_entries s filtered)
       then success_branch (cached_entries s filtered) custom_section s2
       else failed_branch (cached_entries s filtered) custom_section s2) /\
    invoked (snd (HealthCheck.run timeout check s)) = invoked s /\
    cache (hc (snd (HealthCheck.run timeout check s))) = cache (hc s).
Proof.
  intros Hf Hfresh. pose proof (run_after_results timeout check s filtered Hf) as Hrun.
  rewrite (collect_results_all_fresh timeout filtered [] s Hfresh) in Hrun. simpl in Hrun.
  destruct Hrun as (cs & s2 & _ & _ & Hrun & (_ & _ & Hhc & Hi)).
  exists cs, s2. split; [done|]. simpl in Hhc, Hi. by rewrite Hhc, Hi.
Qed.

Lemma run_on_fresh_cache_invokes_nothing_witness :
  exists custom_section s2,
    HealthCheck.run timeout None frozen_cached =
      (if all_passed (cached_entries frozen_cached [1%positive])
       then success_branch (cached_entries frozen_cached [1%positive]) custom_section s2
       else failed_branch (cached_entries frozen_cached [1%positive]) custom_section s2) /\
    invoked (snd (HealthCheck.run timeout None frozen_cached)) = invoked frozen_cached /\
    cache (hc (snd (HealthCheck.run timeout None frozen_cached))) = cache (hc frozen_cached).
Proof.
  apply (run_on_fresh_cache_invokes_nothing timeout None frozen_cached [1%positive]).
  - vm_compute. reflexivity.
  - intros o Ho. apply list_elem_of_singleton in Ho as ->.
    exists (value no_result (fst (HealthCheck.run_check timeout 1%positive
                                    (registered [probe_ok] (empty_state plain_hc frozen))))).
    split; [vm_compute; reflexivity|].
    intros n. apply Qle_bool_iff. vm_compute. reflexivity.
Defined.

(** [run] when the selector resolves to nothing. *)
Lemma run_resolving_nothing timeout check s :
  HealthCheckMonitor.get_checkers check s = (Ok [], s) ->
  exists custom_section s2,
    HealthCheck.run timeout check s = success_branch [] custom_section s2 /\
    invoked (snd (HealthCheck.run timeout check s)) = invoked s /\
    cache (hc (snd (HealthCheck.run timeout check s))) = cache (hc s).
Proof.
  intros Hf. pose proof (run_after_results timeout check s [] Hf) as Hrun.
  simpl in Hrun. destruct Hrun as (cs & s2 & _ & _ & Hrun & (_ & _ & Hhc & Hi)).
  exists cs, s2. split; [done|]. simpl in Hhc, Hi. by rewrite Hhc, Hi.
Qed.

Lemma get_checkers_unknown name s :
  name <> "" ->
  dict_get (Some name) (checkers s) = None ->
  HealthCheckMonitor.get_checkers (Some name) s = (Ok [], s).
Proof.
  intros Hne Hget.
  unfold HealthCheckMonitor.get_checkers, HealthCheckMonitor.get, bind, gets, ret.
  destruct (String.eqb_spec name ""); [done|]. simpl. by rewrite Hget.
Qed.

(** X4: run with a name that is not registered resolves nothing: it invokes
    no probe, leaves the cache as it is and takes the success branch with no
    results. *)
Theorem run_with_unknown_name timeout name s :
  name <> "" ->
  dict_get (Some name) (checkers s) = None ->
  exists custom_section s2,
    HealthCheck.run timeout (Some name) s = success_branch [] custom_section s2 /\
    invoked (snd (HealthCheck.run timeout (Some name) s)) = invoked s /\
    cache (hc (snd (HealthCheck.run timeout (Some name) s))) = cache (hc s).
Proof.
  intros Hne Hget. apply run_resolving_nothing. by apply get_checkers_unknown.
Qed.

Lemma run_with_unknown_name_witness :
  exists custom_section s2,
    HealthCheck.run timeout (Some "nope") two_probes
      = success_branch [] custom_section s2 /\
    invoked (snd (HealthCheck.run timeout (Some "nope") two_probes)) = invoked two_probes /\
    cache (hc (snd (HealthCheck.run timeout (Some "nope") two_probes)))
      = cache (hc two_probes).
Proof.
  apply (run_with_unknown_name timeout "nope" two_probes).
  - discriminate.
  - vm_compute. reflexivity.
Defined.

(** X5: after unregister_all, run resolves nothing whatever the selector: no
    probe is invoked and the success branch is taken with no results, while
    the cache keeps the entries it had (unregister_all does not reset it). *)
Theorem run_after_unregister_all timeout check s :
  let s1 := snd (HealthCheckMonitor.unregister_all s) in
  checkers s1 = [] /\
  cache (hc s1) = cache (hc s) /\
  exists custom_section s2,
    HealthCheck.run timeout check s1 = success_branch [] custom_section s2 /\
    invoked (snd (HealthCheck.run timeout check s1)) = invoked s /\
    cache (hc (snd (HealthCheck.run timeout check s1))) = cache (hc s).
Proof.
  intros s1. split; [done|]. split; [done|].
  apply (run_resolving_nothing timeout check s1).
  unfold HealthCheckMonitor.get_checkers, HealthCheckMonitor.get, bind, gets, ret.
  destruct check as [n|]; [|done]. by destruct (negb (String.eqb n "")).
Qed.

(** ** Passing probes *)

Section PassingProbes.
Variable timeout : Q -> string -> callable -> callable.

Lemma refresh_passing o s :
  (exists c, heap s !! o = Some (OChecker c)) ->
  always_passes timeout o s ->
  exists r s', HealthCheck.refresh timeout o s = (Ok r, s') /\
               truthy (CheckResult.passed r) = true /\
               cache (hc s') = <[o := r]> (cache (hc s)) /\
               invoked s' = (invoked s ++ [o])%list.
Proof.
  intros [c Hobj] Hpass.
  destruct (Hpass (tick (world s))) as (p & out & w' & Hcall & Hp).
  destruct (run_check_returned timeout o c s _ w' p out Hobj Hcall eq_refl)
    as (r & s1 & Hrun & Hpr & _).
  pose proof (refresh_state timeout o s) as (_ & _ & _ & Hi & Hk).
  destruct (HealthCheck.refresh timeout o s) as [res s'] eqn:Href.
  unfold HealthCheck.refresh, bind, modify, ret in Href. rewrite Hrun in Href.
  injection Href as <- <-. simpl in Hk, Hi.
  exists r. eexists. split; [done|]. by rewrite Hpr.
Qed.

Lemma collect_results_passing filtered all acc s :
  (forall o, o ∈ filtered -> o ∈ all) ->
  handles (heap s) all ->
  (forall o, o ∈ all -> always_passes timeout o s) ->
  cached_passing all s ->
  all_passed acc = true ->
  exists results s',
    HealthCheck.collect_results timeout filtered acc s = (Ok results, s') /\
    all_passed results = true /\
    (NoDup filtered -> (forall o, o ∈ filtered -> cache (hc s) !! o = None) ->
     invoked s' = (invoked s ++ filtered)%list).
Proof.
  revert acc s. induction filtered as [|o rest IH]; intros acc s Hsub Hh Hpass Hinv Hacc; simpl.
  - exists acc, s. split; [done|]. split; [done|]. intros _ _. by rewrite app_nil_r.
  - assert (o ∈ all) as Ho by (apply Hsub; left).
    assert (exists r s1, HealthCheck.cached_or_run timeout o s = (Ok r, s1) /\
              truthy (CheckResult.passed r) = true /\ cached_passing all s1 /\
              (cache (hc s) !! o = None ->
               invoked s1 = (invoked s ++ [o])%list /\
               forall k, k ≠ o -> cache (hc s1) !! k = cache (hc s) !! k))
      as (r & s1 & Hstep & Hr & Hinv1 & Hmiss).
    { assert (forall s0, heap s0 = heap s -> hc s0 = hc s -> invoked s0 = invoked s ->
                exists r s1, HealthCheck.refresh timeout o s0 = (Ok r, s1) /\
                  truthy (CheckResult.passed r) = true /\ cached_passing all s1 /\
                  invoked s1 = (invoked s ++ [o])%list /\
                  forall k, k ≠ o -> cache (hc s1) !! k = cache (hc s) !! k) as Hrefresh.
      { intros s0 Hh0 Hc0 Hi0.
        destruct (refresh_passing o s0) as (r & s1 & Href & Hr & Hk & Hi).
        { rewrite Hh0. by apply Hh. }
        { intros w. unfold always_passes in Hpass. rewrite Hh0, Hc0. by apply Hpass. }
        exists r, s1. split; [done|]. split; [done|]. split; [|split].
        - intros k r' Hk' Hget. rewrite Hk in Hget.
          destruct (decide (o = k)) as [->|Hne].
          + rewrite lookup_insert_eq in Hget. by injection Hget as <-.
          + rewrite lookup_insert_ne in Hget by done. rewrite Hc0 in Hget.
            by apply (Hinv k).
        - by rewrite Hi, Hi0.
        - intros k Hne. rewrite Hk, lookup_insert_ne by done. by rewrite Hc0. }
      destruct (cache (hc s) !! o) as [entry|] eqn:Hc.
      - destruct (Qle_bool (peek (world s)) (CheckResult.expires entry)) eqn:Hle.
        + rewrite (cached_or_run_hit _ _ _ _ Hc Hle).
          exists entry. eexists. split; [done|]. split; [by apply (Hinv o)|].
          split; [exact Hinv|]. done.
        + rewrite (cached_or_run_stale _ _ _ _ Hc Hle).
          destruct (Hrefresh (set_world (tick (world s)) s)) as (r & s1 & ? & ? & ? & ? & ?);
            try done.
          exists r, s1. done.
      - rewrite (cached_or_run_absent _ _ _ Hc).
        destruct (Hrefresh s) as (r & s1 & ? & ? & ? & ? & ?); try done.
        exists r, s1. done. }
    pose proof (keeps_cached_or_run timeout o s) as [Hheap _ Hcfg _].
    rewrite Hstep in Hheap, Hcfg. simpl in Hheap, Hcfg.
    destruct (IH (acc ++ [r])%list s1) as (results & s' & Hrest & Hall & Hinvk).
    { intros o' Ho'. apply Hsub. by right. }
    { by rewrite Hheap. }
    { intros o' Ho' w. unfold always_passes in Hpass.
      rewrite Hheap, (config_guarded timeout _ _ Hcfg). by apply Hpass. }
    { done. }
    { unfold all_passed in *. rewrite forallb_app, Hacc. simpl. by rewrite Hr. }
    exists results, s'. unfold bind. rewrite Hstep. split; [done|]. split; [done|].
    intros Hnd Hnone. apply NoDup_cons in Hnd as [Hnotin Hnd].
    destruct (Hmiss (Hnone o ltac:(left))) as [Hi1 Hother].
    rewrite Hinvk; [|done|].
    + rewrite Hi1, <- app_assoc. done.
    + intros o' Ho'. rewrite Hother; [apply Hnone; by right|].
      intros ->. done.
Qed.
End PassingProbes.

(** X6: when every resolved handle is a Checker whose probe returns a
    passing pair and the cache holds only passing entries for them, run
    returns through the success branch with one result per handle; from an
    empty cache it invokes each handle once, in resolution order. *)
Theorem run_succeeds_when_all_probes_pass timeout check s filtered :
  HealthCheckMonitor.get_checkers check s = (Ok filtered, s) ->
  handles (heap s) filtered ->
  (forall o, o ∈ filtered -> always_passes timeout o s) ->
  cached_passing filtered s ->
  exists results custom_section s2,
    HealthCheck.run timeout check s = success_branch results custom_section s2 /\
    length results = length filtered /\
    (NoDup filtered -> (forall o, o ∈ filtered -> cache (hc s) !! o = None) ->
     invoked s2 = (invoked s ++ filtered)%list).
Proof.
  intros Hf Hh Hpass Hinv.
  destruct (collect_results_passing timeout filtered filtered [] s)
    as (results & s1 & Hres & Hall & Hinvk); try done.
  pose proof (run_after_results timeout check s filtered Hf) as Hrun.
  destruct (collect_results_shape timeout filtered [] s) as (_ & Hshape).
  rewrite Hres in Hrun, Hshape. simpl in Hshape.
  destruct Hrun as (cs & s2 & _ & (_ & _ & _ & Hq) & Hrun & _).
  destruct (Hshape results eq_refl) as [Hlen _].
  exists results, cs, s2. rewrite Hall in Hrun. split; [done|]. split; [done|].
  intros Hnd Hnone. rewrite Hq. by apply Hinvk.
Qed.

Lemma run_succeeds_when_all_probes_pass_witness :
  exists results custom_section s2,
    HealthCheck.run timeout None one_probe = success_branch results custom_section s2 /\
    length results = length [1%positive] /\
    (NoDup [1%positive] ->
     (forall o, o ∈ [1%positive] -> cache (hc one_probe) !! o = None) ->
     invoked s2 = (invoked one_probe ++ [1%positive])%list).
Proof.
  apply (run_succeeds_when_all_probes_pass timeout None one_probe [1%positive]).
  - vm_compute. reflexivity.
  - intros o Ho. apply list_elem_of_singleton in Ho as ->. eexists. vm_compute. reflexivity.
  - intros o Ho w. apply list_elem_of_singleton in Ho as ->.
    exists (VBool true), (VStr "fine"), w. split; reflexivity.
  - intros o r Ho H. apply list_elem_of_singleton in Ho as ->. vm_compute in H. discriminate.
Defined.

(** X7: run with a registered, non-empty name invokes at most the handle
    registered under that name, at most once, and changes no other handle's
    cache entry, whether it returns or raises. *)
Theorem run_with_name_touches_only_that_handle timeout name o s :
  name <> "" ->
  dict_get (Some name) (checkers s) = Some o ->
  let s' := snd (HealthCheck.run timeout (Some name) s) in
  exists new,
    invoked s' = (invoked s ++ new)%list /\
    (new = [] \/ new = [o]) /\
    forall k, k <> o -> cache (hc s') !! k = cache (hc s) !! k.
Proof.
  intros Hne Hget s'.
  assert (HealthCheckMonitor.get_checkers (Some name) s = (Ok [o], s)) as Hf.
  { unfold HealthCheckMonitor.get_checkers, HealthCheckMonitor.get, bind, gets, ret.
    destruct (String.eqb_spec name ""); [done|]. simpl. by rewrite Hget. }
  pose proof (run_after_results timeout (Some name) s [o] Hf) as Hrun.
  destruct (collect_results_shape timeout [o] [] s) as ((new & Hi & Hsub) & _).
  pose proof (keeps_collect_results timeout [o] [] s) as [_ _ _ (new' & Hi' & _ & Hsame)].
  assert (new' = new) as -> by (rewrite Hi in Hi'; by apply app_inv_head in Hi').
  assert (new = [] \/ new = [o]) as Hcases.
  { apply sublist_cons_r in Hsub as [Hsub | (l' & -> & Hsub)];
      apply sublist_nil_r in Hsub as ->; auto. }
  assert (forall k, k <> o -> k ∉ new) as Hnotin.
  { intros k Hk. destruct Hcases as [-> | ->]; set_solver. }
  exists new. subst s'.
  destruct (HealthCheck.collect_results timeout [o] [] s) as [[results|e] s1].
  - destruct Hrun as (cs & s2 & _ & _ & _ & (_ & _ & Hhc & Hq)).
    rewrite Hq, Hhc. split; [done|]. split; [done|]. intros k Hk. by apply Hsame, Hnotin.
  - rewrite Hrun. split; [done|]. split; [done|]. intros k Hk. by apply Hsame, Hnotin.
Qed.

Lemma run_with_name_touches_only_that_handle_witness :
  let s' := snd (HealthCheck.run timeout (Some "queue") two_probes) in
  exists new,
    invoked s' = (invoked two_probes ++ new)%list /\
    (new = [] \/ new = [2%positive]) /\
    forall k, k <> 2%positive -> cache (hc s') !! k = cache (hc two_probes) !! k.
Proof.
  apply (run_with_name_touches_only_that_handle timeout "queue" 2%positive two_probes).
  - discriminate.
  - vm_compute. reflexivity.
Defined.

(** ** Entries that are not decorated handles *)

(** A plain function in the registry: whatever its probe does, [run_check]
    ends in the missing [name] attribute. *)
Lemma run_check_plain_function timeout o f s :
  heap s !! o = Some (OFunction f) ->
  exception_handler (hc s) = basic_exception_handler ->
  fst (HealthCheck.run_check timeout o s) = Raise no_name_error.
Proof.
  intros Hobj Hbasic. unfold_run_check.
  repeat case_match; simplify_eq; simpl in *;
    try rewrite Hbasic in *; unfold basic_exception_handler in *; simplify_eq;
    simpl in *; try done.
Qed.

Lemma refresh_raise timeout o s e :
  fst (HealthCheck.run_check timeout o s) = Raise e ->
  fst (HealthCheck.refresh timeout o s) = Raise e.
Proof.
  unfold HealthCheck.refresh, bind.
  destruct (HealthCheck.run_check timeout o s) as [[r|e'] s1]; simpl; congruence.
Qed.

Lemma cached_or_run_total timeout o c s :
  heap s !! o = Some (OChecker c) ->
  exception_handler (hc s) = basic_exception_handler ->
  exists r s', HealthCheck.cached_or_run timeout o s = (Ok r, s').
Proof.
  intros Hobj Hbasic.
  assert (forall s0, heap s0 = heap s -> hc s0 = hc s ->
            exists r s', HealthCheck.refresh timeout o s0 = (Ok r, s')) as Hrefresh.
  { intros s0 Hh Hc.
    destruct (run_check_total timeout o c s0) as (r & s1 & Hrun); [congruence..|].
    unfold HealthCheck.refresh, bind, modify, ret. rewrite Hrun. eauto. }
  destruct (cache (hc s) !! o) as [entry|] eqn:Hc.
  - destruct (Qle_bool (peek (world s)) (CheckResult.expires entry)) eqn:Hle.
    + rewrite (cached_or_run_hit _ _ _ _ Hc Hle). eauto.
    + rewrite (cached_or_run_stale _ _ _ _ Hc Hle). by apply Hrefresh.
  - rewrite (cached_or_run_absent _ _ _ Hc). by apply Hrefresh.
Qed.

Lemma collect_results_plain_function timeout filtered acc s o f :
  (forall k, k ∈ filtered ->
     (exists c, heap s !! k = Some (OChecker c)) \/ (exists g, heap s !! k = Some (OFunction g))) ->
  exception_handler (hc s) = basic_exception_handler ->
  o ∈ filtered ->
  heap s !! o = Some (OFunction f) ->
  cache (hc s) !! o = None ->
  fst (HealthCheck.collect_results timeout filtered acc s) = Raise no_name_error.
Proof.
  revert acc s. induction filtered as [|k rest IH]; intros acc s Hlive Hbasic Hin Hobj Hnone.
  - by apply elem_of_nil in Hin.
  - simpl. unfold bind.
    pose proof (keeps_cached_or_run timeout k s) as [Hheap _ Hcfg (new & Hi & _ & Hsame)].
    destruct (HealthCheck.cached_or_run timeout k s) as [[r|e] s1] eqn:Hstep; simpl in *.
    + assert (k <> o) as Hne.
      { intros ->. rewrite (cached_or_run_absent _ _ _ Hnone) in Hstep.
        pose proof (refresh_raise timeout o s no_name_error
                      (run_check_plain_function timeout o f s Hobj Hbasic)) as Hr.
        rewrite Hstep in Hr. done. }
      apply IH.
      * intros k' Hk'. rewrite Hheap. apply Hlive. by right.
      * by rewrite (config_exception_handler _ _ Hcfg).
      * apply elem_of_cons in Hin as [->|Hin]; done.
      * by rewrite Hheap.
      * destruct (collect_results_shape timeout [k] [] s) as ((n1 & Hi1 & Hsub) & _).
        simpl in Hi1. unfold bind in Hi1. rewrite Hstep in Hi1. simpl in Hi1.
        assert (n1 = new) as -> by (rewrite Hi in Hi1; by apply app_inv_head in Hi1).
        rewrite Hsame; [done|].
        intros Hmem. pose proof (elem_of_sublist _ _ _ Hmem Hsub) as Hk.
        apply list_elem_of_singleton in Hk. congruence.
    + destruct (Hlive k) as [[c Hc]|[g Hg]]; [left| |].
      * destruct (cached_or_run_total timeout k c s Hc Hbasic) as (r & s' & Heq).
        rewrite Hstep in Heq. done.
      * destruct (cache (hc s) !! k) as [entry|] eqn:Hck.
        -- destruct (Qle_bool (peek (world s)) (CheckResult.expires entry)) eqn:Hle.
           ++ rewrite (cached_or_run_hit _ _ _ _ Hck Hle) in Hstep. done.
           ++ rewrite (cached_or_run_stale _ _ _ _ Hck Hle) in Hstep.
              pose proof (refresh_raise timeout k (set_world (tick (world s)) s) no_name_error
                            (run_check_plain_function timeout k g (set_world (tick (world s)) s) Hg Hbasic)) as Hr.
              rewrite Hstep in Hr. simpl in Hr. congruence.
        -- rewrite (cached_or_run_absent _ _ _ Hck) in Hstep.
           pose proof (refresh_raise timeout k s no_name_error
                         (run_check_plain_function timeout k g s Hg Hbasic)) as Hr.
           rewrite Hstep in Hr. simpl in Hr. congruence.
Qed.

(** X8: a plain function that HealthCheckMonitor.register put into the
    registry is callable but has no name attribute: under the default adapter
    run_check on it raises AttributeError whatever the function does, and so
    does every run that resolves it without a cache entry. *)
Theorem plain_function_entry_makes_run_raise timeout check s filtered o f :
  HealthCheckMonitor.get_checkers check s = (Ok filtered, s) ->
  (forall k, k ∈ filtered ->
     (exists c, heap s !! k = Some (OChecker c)) \/ (exists g, heap s !! k = Some (OFunction g))) ->
  exception_handler (hc s) = basic_exception_handler ->
  o ∈ filtered ->
  heap s !! o = Some (OFunction f) ->
  cache (hc s) !! o = None ->
  fst (HealthCheck.run_check timeout o s) = Raise no_name_error /\
  fst (HealthCheck.run timeout check s) = Raise no_name_error.
Proof.
  intros Hf Hlive Hbasic Hin Hobj Hnone. split.
  - by apply run_check_plain_function with f.
  - pose proof (run_after_results timeout check s filtered Hf) as Hrun.
    pose proof (collect_results_plain_function timeout filtered [] s o f
                  Hlive Hbasic Hin Hobj Hnone) as Hraise.
    destruct (HealthCheck.collect_results timeout filtered [] s) as [[results|e] s1];
      simpl in Hraise; [done|].
    rewrite Hrun. simpl. congruence.
Qed.

Lemma plain_function_entry_makes_run_raise_witness :
  fst (HealthCheck.run_check timeout 1%positive plain_function_state) = Raise no_name_error /\
  fst (HealthCheck.run timeout None plain_function_state) = Raise no_name_error.
Proof.
  apply (plain_function_entry_makes_run_raise timeout None plain_function_state
           [1%positive] 1%positive probe_ok).
  - vm_compute. reflexivity.
  - intros k Hk. apply list_elem_of_singleton in Hk as ->. right. eexists.
    vm_compute. reflexivity.
  - reflexivity.
  - left.
  - vm_compute. reflexivity.
  - vm_compute. reflexivity.
Defined.

(** ** Inside [run_check] *)

Lemma Qlt_bool_false x y : Qlt_bool x y = false <-> (y <= x)%Q.
Proof. unfold Qlt_bool. rewrite negb_false_iff. apply Qle_bool_iff. Qed.

Lemma guarded_disabled timeout self probe :
  (error_timeout self <= 0)%Q -> guarded timeout self probe = probe.
Proof. intros H. unfold guarded. apply Qlt_bool_false in H. by rewrite H. Qed.

(** [run_check] when the guarded call returned something that does not
    unpack and the adapter answered. *)
Lemma run_check_bad_return timeout checker c s v w1 e v' w2 p out :
  heap s !! checker = Some (OChecker c) ->
  guarded timeout (hc s) (call_object (heap s) checker) no_args (tick (world s))
    = (Ok v, w1) ->
  unpack2 v = Raise e ->
  exception_handler (hc s) checker e w1 = (Ok v', w2) ->
  unpack2 v' = Ok (p, out) ->
  exists r s', HealthCheck.run_check timeout checker s = (Ok r, s') /\
               CheckResult.passed r = p /\ CheckResult.output r = out.
Proof.
  intros Hobj Hcall Hbad Hadapt Hunpack.
  unfold guarded, tick, time_time in Hcall. simpl in Hcall.
  unfold_run_check.
  simpl. rewrite Hcall. simpl. rewrite Hbad. simpl. rewrite Hadapt. simpl.
  rewrite Hunpack. simpl.
  destruct (truthy p); simpl; rewrite ?Hobj; simpl; rewrite ?Hobj; eauto.
Qed.

(** X9: a probe that returns something that does not unpack into two
    values is reported as a failed check under the default adapter: the
    unpacking error is caught like an exception of the probe and its message
    becomes the output. *)
Theorem probe_returning_no_pair_is_reported_failed timeout checker c s v w1 e :
  heap s !! checker = Some (OChecker c) ->
  guarded timeout (hc s) (call_object (heap s) checker) no_args (tick (world s))
    = (Ok v, w1) ->
  unpack2 v = Raise e ->
  exception_handler (hc s) = basic_exception_handler ->
  exists r s', HealthCheck.run_check timeout checker s = (Ok r, s') /\
               CheckResult.passed r = VBool false /\
               CheckResult.output r = VStr (exn_str e).
Proof.
  intros Hobj Hcall Hbad Hbasic.
  apply (run_check_bad_return timeout checker c s v w1 e
           (VTuple [VBool false; VStr (exn_str e)]) w1); try done.
  by rewrite Hbasic.
Qed.

Lemma probe_returning_no_pair_is_reported_failed_witness :
  exists r s', HealthCheck.run_check timeout 1%positive none_probe = (Ok r, s') /\
               CheckResult.passed r = VBool false /\
               CheckResult.output r = VStr "cannot unpack non-iterable NoneType object".
Proof.
  apply (probe_returning_no_pair_is_reported_failed timeout 1%positive
           {| _name := Some "none"; _wrapped := Some (wrapper_of probe_none) |}
           none_probe VNone (tick (world none_probe))
           (TypeError "cannot unpack non-iterable NoneType object")).
  - vm_compute. reflexivity.
  - vm_compute. reflexivity.
  - vm_compute. reflexivity.
  - reflexivity.
Defined.

(** What [unpack2] accepts. *)
Lemma unpack2_ok v p out :
  unpack2 v = Ok (p, out) <->
  v = VTuple [p; out] \/
  exists c1 c2, v = VStr (String c1 (String c2 EmptyString)) /\
                p = VStr (String c1 EmptyString) /\ out = VStr (String c2 EmptyString).
Proof.
  split.
  - destruct v as [| | |s|items]; simpl; try done.
    + destruct s as [|c1 [|c2 [|c3 s]]]; simpl; try done.
      intros [= <- <-]. right. by exists c1, c2.
    + destruct items as [|a [|b [|c items]]]; simpl; try done.
      intros [= <- <-]. by left.
  - intros [-> | (c1 & c2 & -> & -> & ->)]; done.
Qed.

(** X10: the exception adapter runs outside the try block: when the probe
    raises and the adapter raises in turn, or returns something that does not
    unpack into two values, that exception leaves run_check. *)
Theorem adapter_failure_leaves_run_check timeout checker s e w1 :
  guarded timeout (hc s) (call_object (heap s) checker) no_args (tick (world s))
    = (Raise e, w1) ->
  (forall e' w2,
      exception_handler (hc s) checker e w1 = (Raise e', w2) ->
      fst (HealthCheck.run_check timeout checker s) = Raise e') /\
  (forall v e' w2,
      exception_handler (hc s) checker e w1 = (Ok v, w2) ->
      unpack2 v = Raise e' ->
      fst (HealthCheck.run_check timeout checker s) = Raise e').
Proof.
  intros Hcall. unfold guarded, tick, time_time in Hcall. simpl in Hcall.
  split.
  - intros e' w2 Hadapt. unfold_run_check. simpl. rewrite Hcall. simpl. by rewrite Hadapt.
  - intros v e' w2 Hadapt Hbad. unfold_run_check. simpl. rewrite Hcall. simpl.
    rewrite Hadapt. simpl. by rewrite Hbad.
Qed.

Lemma adapter_failure_leaves_run_check_witness :
  fst (HealthCheck.run_check timeout 1%positive reraising_boom) = Raise (ValueError "boom").
Proof.
  apply (proj1 (adapter_failure_leaves_run_check timeout 1%positive reraising_boom
                  (ValueError "boom") (tick (world reraising_boom))
                  ltac:(vm_compute; reflexivity))
           (ValueError "boom") (tick (world reraising_boom))).
  vm_compute. reflexivity.
Defined.

(** X11: a run_check that returns has logged exactly this, in order: one
    exception record for the exception its try block ended in (raised by the
    guarded call or by unpacking its return value), none if there was no such
    exception; then one error record with the handle's name and the output
    if the result did not pass, none if it passed.  A passing result whose
    try block raised nothing logs nothing. *)
Theorem run_check_logs_failures_only timeout checker s r s' :
  HealthCheck.run_check timeout checker s = (Ok r, s') ->
  logged s' =
    (logged s
       ++ match caught timeout checker s with
          | Some e => [LogException e]
          | None => []
          end
       ++ (if truthy (CheckResult.passed r) then []
           else [LogError (CheckResult.checker r) (CheckResult.output r)]))%list /\
  (caught timeout checker s = None -> truthy (CheckResult.passed r) = true ->
   logged s' = logged s).
Proof.
  intros Hrun.
  assert (logged s' =
            (logged s
               ++ match caught timeout checker s with
                  | Some e => [LogException e]
                  | None => []
                  end
               ++ (if truthy (CheckResult.passed r) then []
                   else [LogError (CheckResult.checker r) (CheckResult.output r)]))%list)
    as Hlog.
  { revert Hrun. unfold caught, guarded, tick. unfold_run_check. simpl.
    destruct ((if Qlt_bool 0 (error_timeout (hc s))
               then timeout (error_timeout (hc s)) "Timeout error!"
                      (call_object (heap s) checker)
               else call_object (heap s) checker) no_args
              {| reads := S (reads (world s)); clock := clock (world s) |})
      as [[v|e] w1] eqn:Hcall; simpl.
    - destruct (unpack2 v) as [[p out]|e] eqn:Hu; simpl.
      + destruct (truthy p) eqn:Hp; simpl;
          destruct (heap s !! checker) as [[c|f]|] eqn:Hobj; simpl; rewrite ?Hobj; simpl;
          intros H; simplify_eq; simpl; rewrite ?Hp, ?app_nil_r; done.
      + destruct (exception_handler (hc s) checker e w1) as [[v'|e'] w2]; simpl; [|done].
        destruct (unpack2 v') as [[p out]|e'']; simpl; [|done].
        destruct (truthy p) eqn:Hp; simpl;
          destruct (heap s !! checker) as [[c|f]|] eqn:Hobj; simpl; rewrite ?Hobj; simpl;
          intros H; simplify_eq; simpl; rewrite ?Hp, <- ?app_assoc; done.
    - destruct (exception_handler (hc s) checker e w1) as [[v'|e'] w2]; simpl; [|done].
      destruct (unpack2 v') as [[p out]|e'']; simpl; [|done].
      destruct (truthy p) eqn:Hp; simpl;
        destruct (heap s !! checker) as [[c|f]|] eqn:Hobj; simpl; rewrite ?Hobj; simpl;
        intros H; simplify_eq; simpl; rewrite ?Hp, <- ?app_assoc; done. }
  split; [done|].
  intros Hnone Hpass. rewrite Hlog, Hnone, Hpass. simpl. by rewrite app_nil_r.
Qed.

Lemma run_check_logs_failures_only_witness :
  let r := value no_result (fst (HealthCheck.run_check timeout 2%positive boom_probes)) in
  let s' := snd (HealthCheck.run_check timeout 2%positive boom_probes) in
  logged s' =
    (logged boom_probes
       ++ match caught timeout 2%positive boom_probes with
          | Some e => [LogException e]
          | None => []
          end
       ++ (if truthy (CheckResult.passed r) then []
           else [LogError (CheckResult.checker r) (CheckResult.output r)]))%list /\
  (caught timeout 2%positive boom_probes = None ->
   truthy (CheckResult.passed r) = true ->
   logged s' = logged boom_probes).
Proof.
  apply (run_check_logs_failures_only timeout 2%positive boom_probes
           (value no_result (fst (HealthCheck.run_check timeout 2%positive boom_probes)))
           (snd (HealthCheck.run_check timeout 2%positive boom_probes))).
  vm_compute. reflexivity.
Defined.

(** X13: a Checker that never decorated a function can be registered with
    add_check under its name; with the timeout guard off and the default
    adapter, running it gives a failed result whose output is the missing
    _wrapped attribute error. *)
Theorem undecorated_checker_is_reported_failed timeout name s :
  let self := fresh (dom (heap s)) in
  let s1 := snd (Checker.__init__ name s) in
  let s2 := snd (HealthCheck.add_check (CheckerInstance self) s1) in
  fst (Checker.__init__ name s) = Ok self /\
  HealthCheck.add_check (CheckerInstance self) s1 = (Ok tt, s2) /\
  dict_get name (checkers s2) = Some self /\
  ((error_timeout (hc s) <= 0)%Q ->
   exception_handler (hc s) = basic_exception_handler ->
   exists r s3,
     HealthCheck.run_check timeout self s2 = (Ok r, s3) /\
     CheckResult.passed r = VBool false /\
     CheckResult.output r = VStr "'Checker' object has no attribute '_wrapped'").
Proof.
  intros self s1 s2.
  assert (heap s1 !! self = Some (OChecker {| _name := name; _wrapped := None |})) as Hobj.
  { apply lookup_insert_eq. }
  assert (HealthCheck.add_check (CheckerInstance self) s1 =
            (Ok tt, set_checkers (dict_set name self (checkers s1)) s1)) as Hadd.
  { unfold HealthCheck.add_check, HealthCheckMonitor.register, bind, deref, modify.
    by rewrite Hobj. }
  subst s2. rewrite Hadd. simpl.
  split; [done|]. split; [done|]. split; [apply dict_get_set_eq|].
  intros Hoff Hbasic.
  apply (run_check_raised timeout self {| _name := name; _wrapped := None |} _
           no_wrapped_error (tick (world s))
           (VTuple [VBool false; VStr (exn_str no_wrapped_error)])
           (tick (world s))); try done.
  - rewrite guarded_disabled by done. unfold call_object. simpl.
    change (heap s1 !! self) with (<[self := OChecker {| _name := name; _wrapped := None |}]> (heap s) !! self).
    by rewrite lookup_insert_eq.
  - simpl. by rewrite Hbasic.
Qed.

Lemma undecorated_checker_is_reported_failed_witness :
  exists r s3,
    HealthCheck.run_check timeout 1%positive
      (snd (HealthCheck.add_check (CheckerInstance 1%positive) bare_checker))
      = (Ok r, s3) /\
    CheckResult.passed r = VBool false /\
    CheckResult.output r = VStr "'Checker' object has no attribute '_wrapped'".
Proof.
  apply (proj2 (proj2 (proj2 (undecorated_checker_is_reported_failed timeout (Some "db")
                                (empty_state plain_hc ticking))))).
  - apply Qle_refl.
  - reflexivity.
Defined.

(** ** The registry *)

Section DictMore.
Context {K V : Type} `{EqDecision K}.
Implicit Types (d : list (K * V)).

Lemma dict_get_None k d : dict_get k d = None <-> k ∉ dict_keys d.
Proof.
  induction d as [|[k' v'] d IH]; simpl.
  - split; [intros _; apply not_elem_of_nil | done].
  - unfold dict_keys in *. simpl. rewrite not_elem_of_cons.
    destruct (decide (k = k')) as [->|Hne]; [split; [done|intros [? _]; done]|].
    rewrite IH. naive_solver.
Qed.

Lemma dict_set_absent k v d : dict_get k d = None -> dict_set k v d = (d ++ [(k, v)])%list.
Proof.
  induction d as [|[k' v'] d IH]; simpl; [done|].
  destruct (decide (k = k')); [done|]. intros H. by rewrite IH.
Qed.

Lemma dict_keys_set_present k v d :
  is_Some (dict_get k d) -> dict_keys (dict_set k v d) = dict_keys d.
Proof.
  unfold dict_keys. induction d as [|[k' v'] d IH]; simpl.
  - by intros [? ?].
  - destruct (decide (k = k')) as [->|Hne]; simpl; [done|]. intros H. by rewrite IH.
Qed.

Lemma dict_set_set k v v' d : dict_set k v (dict_set k v' d) = dict_set k v d.
Proof.
  induction d as [|[k' w] d IH]; simpl.
  - by rewrite decide_True.
  - destruct (decide (k = k')) as [->|Hne]; simpl.
    + by rewrite decide_True.
    + rewrite decide_False by done. by rewrite IH.
Qed.

Lemma dict_keys_set_NoDup k v d : NoDup (dict_keys d) -> NoDup (dict_keys (dict_set k v d)).
Proof.
  intros Hnd. destruct (dict_get k d) as [x|] eqn:Hget.
  - rewrite dict_keys_set_present; [done|eauto].
  - rewrite dict_set_absent by done. unfold dict_keys in *. rewrite map_app. simpl.
    apply NoDup_app. split; [done|]. split; [|apply NoDup_singleton].
    intros k' Hk' Hin. apply list_elem_of_singleton in Hin as ->.
    by apply dict_get_None in Hget.
Qed.

Lemma dict_values_set k v d x :
  x ∈ dict_values (dict_set k v d) -> x = v \/ x ∈ dict_values d.
Proof.
  unfold dict_values. induction d as [|[k' w] d IH]; simpl.
  - intros H. apply list_elem_of_singleton in H. by left.
  - destruct (decide (k = k')) as [->|Hne]; simpl; rewrite !elem_of_cons; naive_solver.
Qed.
End DictMore.

Lemma register_spec o x s :
  heap s !! o = Some x ->
  HealthCheckMonitor.register o s =
    (Ok tt, set_checkers (dict_set (registry_key x) o (checkers s)) s).
Proof.
  intros Hobj. unfold HealthCheckMonitor.register, bind, deref, modify. rewrite Hobj.
  by destruct x.
Qed.

(** X14: after register, the object is found under its registry name (the
    name of a Checker, __name__ of a function), get_checkers with that name
    resolves to exactly it, and the entries of all other names, the heap and
    the aggregator are as before. *)
Theorem register_then_lookup o x s :
  heap s !! o = Some x ->
  let s' := snd (HealthCheckMonitor.register o s) in
  dict_get (registry_key x) (checkers s') = Some o /\
  (forall n, registry_key x = Some n -> n <> "" ->
             HealthCheckMonitor.get_checkers (Some n) s' = (Ok [o], s')) /\
  (forall k, k <> registry_key x -> dict_get k (checkers s') = dict_get k (checkers s)) /\
  heap s' = heap s /\ hc s' = hc s.
Proof.
  intros Hobj s'. subst s'. rewrite (register_spec o x s Hobj). simpl.
  split; [apply dict_get_set_eq|]. split; [|split; [|done]].
  - intros n Hkey Hne.
    unfold HealthCheckMonitor.get_checkers, HealthCheckMonitor.get, bind, gets, ret.
    destruct (String.eqb_spec n ""); [done|]. simpl. by rewrite Hkey, dict_get_set_eq.
  - intros k Hk. by apply dict_get_set_ne.
Qed.

Lemma register_then_lookup_witness :
  let s' := snd (HealthCheckMonitor.register 1%positive bare_checker) in
  dict_get (Some "db") (checkers s') = Some 1%positive /\
  (forall n, Some "db" = Some n -> n <> "" ->
             HealthCheckMonitor.get_checkers (Some n) s' = (Ok [1%positive], s')) /\
  (forall k, k <> Some "db" -> dict_get k (checkers s') = dict_get k (checkers bare_checker)) /\
  heap s' = heap bare_checker /\ hc s' = hc bare_checker.
Proof.
  apply (register_then_lookup 1%positive
           (OChecker {| _name := Some "db"; _wrapped := None |}) bare_checker).
  vm_compute. reflexivity.
Defined.

(** X15: register keeps the registry's names unique: a name that is
    already present keeps its position and only its object is replaced, a
    new name is appended at the end. *)
Theorem register_keeps_names_unique o x s :
  heap s !! o = Some x ->
  let s' := snd (HealthCheckMonitor.register o s) in
  (NoDup (dict_keys (checkers s)) -> NoDup (dict_keys (checkers s'))) /\
  (is_Some (dict_get (registry_key x) (checkers s)) ->
   dict_keys (checkers s') = dict_keys (checkers s)) /\
  (dict_get (registry_key x) (checkers s) = None ->
   checkers s' = (checkers s ++ [(registry_key x, o)])%list).
Proof.
  intros Hobj s'. subst s'. rewrite (register_spec o x s Hobj). simpl.
  split; [apply dict_keys_set_NoDup|]. split.
  - apply dict_keys_set_present.
  - apply dict_set_absent.
Qed.

Lemma register_keeps_names_unique_witness :
  let s' := snd (HealthCheckMonitor.register 1%positive bare_checker) in
  (NoDup (dict_keys (checkers bare_checker)) -> NoDup (dict_keys (checkers s'))) /\
  (is_Some (dict_get (Some "db") (checkers bare_checker)) ->
   dict_keys (checkers s') = dict_keys (checkers bare_checker)) /\
  (dict_get (Some "db") (checkers bare_checker) = None ->
   checkers s' = (checkers bare_checker ++ [(Some "db", 1%positive)])%list).
Proof.
  apply (register_keeps_names_unique 1%positive
           (OChecker {| _name := Some "db"; _wrapped := None |}) bare_checker).
  vm_compute. reflexivity.
Defined.

(** The state [decorate] leaves. *)
Lemma decorate_state self c function s :
  heap s !! self = Some (OChecker c) ->
  let n := match _name c with Some n => Some n | None => Some (__name__ function) end in
  Checker.decorate self function s =
    (Ok (wrapper_of function),
     set_heap (<[self := OChecker {| _name := n; _wrapped := Some (wrapper_of function) |}]>
                 (heap s))
       (set_checkers (dict_set n self (checkers s)) s)).
Proof.
  intros Hobj n. subst n.
  cbv [Checker.decorate Checker.this HealthCheckMonitor.register bind deref store modify
       ret raise].
  rewrite Hobj. destruct c as [[n|] wrapped]; simpl.
  - rewrite Hobj. simpl. rewrite Hobj. done.
  - rewrite !lookup_insert_eq. simpl. rewrite lookup_insert_eq. simpl.
    unfold set_heap, set_checkers. simpl. by rewrite insert_insert_eq.
Qed.

(** X16: a Checker used to decorate a second function keeps the name it
    got first and its registry entry, but now forwards calls (those with no
    keyword named self or func) to the second function: the first function
    is no longer reachable through the registry. *)
Theorem checker_keeps_its_first_name self c f g s :
  heap s !! self = Some (OChecker c) ->
  let n := match _name c with Some n => Some n | None => Some (__name__ f) end in
  let s1 := snd (Checker.decorate self f s) in
  let s2 := snd (Checker.decorate self g s1) in
  fst (Checker.decorate self g s1) = Ok (wrapper_of g) /\
  heap s2 !! self = Some (OChecker {| _name := n; _wrapped := Some (wrapper_of g) |}) /\
  (forall a wd, forwardable a -> call_object (heap s2) self a wd = code g a wd) /\
  checkers s2 = checkers s1 /\
  dict_get n (checkers s2) = Some self.
Proof.
  intros Hobj n s1 s2. subst s2 s1.
  rewrite (decorate_state self c f s Hobj). simpl. fold n.
  rewrite (decorate_state self {| _name := n; _wrapped := Some (wrapper_of f) |} g).
  2:{ simpl. apply lookup_insert_eq. }
  simpl. assert ((match n with Some n0 => Some n0 | None => Some (__name__ g) end) = n) as ->.
  { subst n. by destruct (_name c). }
  split; [done|]. split; [apply lookup_insert_eq|]. split; [|split].
  - intros a wd Hfw. eapply handle_forwards; [apply lookup_insert_eq|done].
  - apply dict_set_set.
  - rewrite dict_set_set. apply dict_get_set_eq.
Qed.

Lemma checker_keeps_its_first_name_witness :
  let s1 := snd (Checker.decorate 1%positive probe_mail unnamed_checker) in
  let s2 := snd (Checker.decorate 1%positive probe_ok s1) in
  fst (Checker.decorate 1%positive probe_ok s1) = Ok (wrapper_of probe_ok) /\
  heap s2 !! 1%positive
    = Some (OChecker {| _name := Some "mail"; _wrapped := Some (wrapper_of probe_ok) |}) /\
  (forall a wd, forwardable a ->
                call_object (heap s2) 1%positive a wd = code probe_ok a wd) /\
  checkers s2 = checkers s1 /\
  dict_get (Some "mail") (checkers s2) = Some 1%positive.
Proof.
  apply (checker_keeps_its_first_name 1%positive {| _name := None; _wrapped := None |}
           probe_mail probe_ok unnamed_checker).
  vm_compute. reflexivity.
Defined.

Lemma checker_function_state f s :
  let o := fresh (dom (heap s)) in
  checker (ArgFunction f) s =
    (Ok (Wrapper (wrapper_of f)),
     set_heap (<[o := OChecker {| _name := Some (__name__ f);
                                  _wrapped := Some (wrapper_of f) |}]> (heap s))
       (set_checkers (dict_set (Some (__name__ f)) o (checkers s)) s)).
Proof.
  intros o. unfold checker, Checker.__init__, bind. rewrite alloc_spec. fold o.
  rewrite (decorate_state o {| _name := None; _wrapped := None |} f).
  2:{ simpl. apply lookup_insert_eq. }
  simpl. unfold ret, set_heap, set_checkers. simpl. by rewrite insert_insert_eq.
Qed.

(** X17: decorating two functions of the same __name__ with checker
    creates two distinct handles, each forwarding (calls with no keyword
    named self or func) to its own function, and the registry keeps one
    entry for the name, at the position it had or at the end, that resolves
    to the second; when the registry only names existing objects the first
    handle is no longer in it. *)
Theorem same_name_last_registration_wins f g s :
  __name__ f = __name__ g ->
  let o1 := fresh (dom (heap s)) in
  let s1 := snd (checker (ArgFunction f) s) in
  let o2 := fresh (dom (heap s1)) in
  let s2 := snd (checker (ArgFunction g) s1) in
  o1 <> o2 /\
  checkers s2 = dict_set (Some (__name__ g)) o2 (checkers s) /\
  (forall a wd, forwardable a -> call_object (heap s2) o2 a wd = code g a wd) /\
  (forall a wd, forwardable a -> call_object (heap s2) o1 a wd = code f a wd) /\
  ((forall o, o ∈ dict_values (checkers s) -> o ∈ dom (heap s)) ->
   o1 ∉ dict_values (checkers s2)).
Proof.
  intros Hname o1 s1 o2 s2.
  assert (s1 = set_heap (<[o1 := OChecker {| _name := Some (__name__ f);
                                             _wrapped := Some (wrapper_of f) |}]> (heap s))
                 (set_checkers (dict_set (Some (__name__ f)) o1 (checkers s)) s)) as Hs1.
  { subst s1. by rewrite checker_function_state. }
  assert (o1 <> o2) as Hne.
  { intros Heq. pose proof (is_fresh (dom (heap s1))) as Hfresh. fold o2 in Hfresh.
    rewrite <- Heq in Hfresh. apply Hfresh. rewrite Hs1. simpl.
    apply elem_of_dom. rewrite lookup_insert_eq. eauto. }
  assert (s2 = set_heap (<[o2 := OChecker {| _name := Some (__name__ g);
                                             _wrapped := Some (wrapper_of g) |}]> (heap s1))
                 (set_checkers (dict_set (Some (__name__ g)) o2 (checkers s1)) s1)) as Hs2.
  { subst s2. by rewrite checker_function_state. }
  split; [done|]. rewrite Hs2. simpl. rewrite Hs1. simpl. rewrite Hname, dict_set_set.
  split; [done|]. split; [|split].
  - intros a wd Hfw. eapply handle_forwards; [apply lookup_insert_eq|done].
  - intros a wd Hfw. eapply handle_forwards; [|done].
    rewrite lookup_insert_ne by done. apply lookup_insert_eq.
  - intros Hwf Hin. apply dict_values_set in Hin as [Heq | Hin]; [done|].
    apply Hwf in Hin. by apply (is_fresh (dom (heap s))).
Qed.

Lemma same_name_last_registration_wins_witness :
  let s := empty_state plain_hc ticking in
  let o1 := fresh (dom (heap s)) in
  let s1 := snd (checker (ArgFunction probe_ok) s) in
  let o2 := fresh (dom (heap s1)) in
  let s2 := snd (checker (ArgFunction probe_db2) s1) in
  o1 <> o2 /\
  checkers s2 = dict_set (Some (__name__ probe_db2)) o2 (checkers s) /\
  (forall a wd, forwardable a -> call_object (heap s2) o2 a wd = code probe_db2 a wd) /\
  (forall a wd, forwardable a -> call_object (heap s2) o1 a wd = code probe_ok a wd) /\
  ((forall o, o ∈ dict_values (checkers s) -> o ∈ dom (heap s)) ->
   o1 ∉ dict_values (checkers s2)).
Proof.
  apply (same_name_last_registration_wins probe_ok probe_db2 (empty_state plain_hc ticking)).
  reflexivity.
Defined.

Lemma add_check_function_state f s :
  let o := fresh (dom (heap s)) in
  HealthCheck.add_check (PlainFunction f) s =
    (Ok tt,
     set_heap (<[o := handle_of f]> (heap s))
       (set_checkers (dict_set (Some (__name__ f)) o (checkers s)) s)).
Proof.
  intros o. unfold HealthCheck.add_check, Checker.__init__, bind. rewrite alloc_spec. fold o.
  rewrite (decorate_state o {| _name := None; _wrapped := None |} f).
  2:{ simpl. apply lookup_insert_eq. }
  simpl. unfold ret, set_heap, set_checkers, handle_of. simpl. by rewrite insert_insert_eq.
Qed.

(** X18: add_check on a plain function returns normally and registers a
    new Checker under the function's __name__ that forwards calls with no
    keyword named self or func to it; the function is not called, and the
    other objects, the entries of other names and the aggregator are left as
    they were. *)
Theorem add_check_wraps_a_plain_function f s :
  let o := fresh (dom (heap s)) in
  let s' := snd (HealthCheck.add_check (PlainFunction f) s) in
  HealthCheck.add_check (PlainFunction f) s = (Ok tt, s') /\
  heap s !! o = None /\
  heap s' !! o = Some (handle_of f) /\
  dict_get (Some (__name__ f)) (checkers s') = Some o /\
  (forall a w, forwardable a -> call_object (heap s') o a w = code f a w) /\
  (forall o' x, heap s !! o' = Some x -> heap s' !! o' = Some x) /\
  (forall k, k <> Some (__name__ f) -> dict_get k (checkers s') = dict_get k (checkers s)) /\
  hc s' = hc s /\ invoked s' = invoked s /\ world s' = world s.
Proof.
  intros o s'. subst s'. rewrite (add_check_function_state f s). fold o. simpl.
  assert (heap s !! o = None) as Hfresh.
  { apply not_elem_of_dom. apply is_fresh. }
  split; [done|]. split; [done|]. split; [apply lookup_insert_eq|].
  split; [apply dict_get_set_eq|]. split; [|split; [|split; [|done]]].
  - intros a w Hfw. eapply handle_forwards; [apply lookup_insert_eq|done].
  - intros o' x Hx. rewrite lookup_insert_ne; [done|]. intros <-. congruence.
  - intros k Hk. by apply dict_get_set_ne.
Qed.

(** ** Custom sections and the formatters *)

(** The custom sections, collected: the lookup of one name. *)
Lemma collect_sections_lookup pre name func post s :
  NoDup (dict_keys (pre ++ (name, func) :: post)) ->
  exists custom_section s',
    HealthCheck.collect_sections (pre ++ (name, func) :: post) [] s
      = (Ok custom_section, s') /\
    dict_get name custom_section =
      section_outcome func (world (snd (HealthCheck.collect_sections pre [] s))).
Proof.
  intros Hnodup. unfold dict_keys in Hnodup. rewrite map_app in Hnodup. simpl in Hnodup.
  apply NoDup_app in Hnodup as (_ & Hpre & Hpost).
  apply NoDup_cons in Hpost as [Hpost _].
  assert (name ∉ dict_keys pre) as Hpre'.
  { intros Hin. apply (Hpre name Hin). left. }
  rewrite collect_sections_app.
  destruct (collect_sections_other pre [] s name Hpre') as (cs0 & s0 & Hcs0 & Hget0).
  rewrite Hcs0. cbn [HealthCheck.collect_sections snd].
  destruct (collect_section_get name func cs0 s0) as (cs1 & s1 & Hstep & Hget1 & _).
  destruct (collect_sections_other post cs1 s1 name Hpost) as (cs & s' & Hrest & Hget).
  exists cs, s'. unfold bind. rewrite Hstep. split; [done|].
  rewrite Hget, Hget1. destruct (section_outcome func (world s0)); [done|].
  by rewrite Hget0.
Qed.

(** X19: add_section with a free name appends the section after the
    existing ones, and the next collection reports it under that name; with
    a name that is taken it raises Exception with the message
    The name "<name>" is already taken. and changes nothing. *)
Theorem add_section_appends_or_rejects name func s :
  (dict_get name (functions (hc s)) = None ->
   HealthCheck.add_section name func s =
     (Ok tt, set_hc (set_functions (functions (hc s) ++ [(name, func)])%list (hc s)) s) /\
   (NoDup (dict_keys (functions (hc s))) ->
    forall s0, exists custom_section s',
      HealthCheck.collect_sections (functions (hc s) ++ [(name, func)])%list [] s0
        = (Ok custom_section, s') /\
      dict_get name custom_section =
        section_outcome func
          (world (snd (HealthCheck.collect_sections (functions (hc s)) [] s0))))) /\
  (is_Some (dict_get name (functions (hc s))) ->
   HealthCheck.add_section name func s = (Raise (name_taken name), s)).
Proof.
  split.
  - intros Hfree. split.
    + unfold HealthCheck.add_section, bind, gets, modify. rewrite Hfree.
      by rewrite dict_set_absent.
    + intros Hnd s0. apply collect_sections_lookup.
      unfold dict_keys in *. rewrite map_app. simpl.
      apply NoDup_app. split; [done|]. split; [|apply NoDup_singleton].
      intros k Hk Hin. apply list_elem_of_singleton in Hin as ->.
      by apply dict_get_None in Hfree.
  - intros [x Hx]. unfold HealthCheck.add_section, bind, gets, raise. by rewrite Hx.
Qed.

Lemma add_section_appends_or_rejects_witness :
  HealthCheck.add_section "results" (Static VNone) json_results_section
    = (Raise (name_taken "results"), json_results_section).
Proof.
  apply (proj2 (add_section_appends_or_rejects "results" (Static VNone) json_results_section)).
  eexists. vm_compute. reflexivity.
Defined.

Section DictFold.
Context {V W : Type} (inj : V -> W).
Implicit Types (kw : list (string * V)) (d : list (string * W)).

Lemma dict_get_Some_key {A} k (d : list (string * A)) v :
  dict_get k d = Some v -> k ∈ dict_keys d.
Proof.
  intros H. destruct (decide (k ∈ dict_keys d)) as [|Hn]; [done|].
  apply dict_get_None in Hn. congruence.
Qed.

Lemma update_all_lookup kw d k :
  NoDup (dict_keys kw) ->
  dict_get k (fold_left (fun data kv => dict_set (fst kv) (inj (snd kv)) data) kw d) =
    match dict_get k kw with
    | Some v => Some (inj v)
    | None => dict_get k d
    end.
Proof.
  revert d. induction kw as [|[k1 v1] kw IH]; intros d Hnd; simpl; [done|].
  unfold dict_keys in Hnd. simpl in Hnd. apply NoDup_cons in Hnd as [Hnotin Hnd].
  rewrite IH by done. destruct (decide (k = k1)) as [->|Hne].
  - assert (dict_get k1 kw = None) as -> by by apply dict_get_None.
    apply dict_get_set_eq.
  - destruct (dict_get k kw); [done|]. by apply dict_get_set_ne.
Qed.

Lemma list_difference_snoc (l ks : list string) k1 :
  k1 ∉ l -> list_difference l (ks ++ [k1])%list = list_difference l ks.
Proof.
  induction l as [|k l IH]; intros Hnotin; simpl; [done|].
  apply not_elem_of_cons in Hnotin as [Hne Hnotin]. rewrite IH by done.
  destruct (decide_rel elem_of k ks) as [Hin|Hn];
    destruct (decide_rel elem_of k (ks ++ [k1])%list) as [Hin'|Hn']; try done.
  - exfalso. apply Hn'. apply elem_of_app. by left.
  - exfalso. apply elem_of_app in Hin' as [?|Hin']; [done|].
    apply list_elem_of_singleton in Hin'. congruence.
Qed.

Lemma update_all_keys kw d :
  NoDup (dict_keys kw) ->
  dict_keys (fold_left (fun data kv => dict_set (fst kv) (inj (snd kv)) data) kw d) =
    (dict_keys d ++ list_difference (dict_keys kw) (dict_keys d))%list.
Proof.
  revert d. induction kw as [|[k1 v1] kw IH]; intros d Hnd; simpl.
  - by rewrite app_nil_r.
  - unfold dict_keys in Hnd. simpl in Hnd. apply NoDup_cons in Hnd as [Hnotin Hnd].
    rewrite IH by done.
    change (dict_keys ((k1, v1) :: kw)) with (k1 :: dict_keys kw).
    cbn [list_difference].
    destruct (dict_get k1 d) as [x|] eqn:Hget.
    + rewrite (dict_keys_set_present k1 (inj v1) d) by eauto.
      destruct (decide_rel elem_of k1 (dict_keys d)) as [?|Hn]; [done|].
      exfalso. apply Hn. by apply dict_get_Some_key in Hget.
    + rewrite (dict_set_absent k1 (inj v1) d) by done.
      assert (dict_keys (d ++ [(k1, inj v1)])%list = (dict_keys d ++ [k1])%list) as ->.
      { unfold dict_keys. by rewrite map_app. }
      rewrite list_difference_snoc by done.
      destruct (decide_rel elem_of k1 (dict_keys d)) as [Hin|?].
      { by apply dict_get_None in Hget. }
      by rewrite <- app_assoc.
Qed.
End DictFold.

Lemma json_data_spec hostname status timestamp results kw :
  NoDup (dict_keys kw) ->
  (forall k,
      dict_get k (json_data hostname status timestamp results kw) =
        match dict_get k kw with
        | Some v => Some (EValue v)
        | None =>
            dict_get k [("hostname", EValue (VStr hostname));
                        ("status", EValue (VStr status));
                        ("timestamp", EValue (VNum timestamp));
                        ("results", EResults results)]
        end) /\
  dict_keys (json_data hostname status timestamp results kw) =
    (reserved_keys ++ list_difference (dict_keys kw) reserved_keys)%list.
Proof.
  intros Hnd. split.
  - intros k. unfold json_data. by rewrite (update_all_lookup EValue).
  - unfold json_data. by rewrite (update_all_keys EValue).
Qed.

(** X20: given keyword arguments without a results key, each of the two
    JSON formatters reads the clock once and returns json.dumps of a dict in
    which a keyword named hostname, status or timestamp replaces the
    formatter's own value at its position, and the remaining keywords follow
    the four reserved keys in their order. *)
Theorem custom_sections_shadow_reserved_keys hostname json_dumps formatter status results kw w :
  (formatter, status) = (json_success_handler hostname json_dumps, "success") \/
  (formatter, status) = (json_failed_handler hostname json_dumps, "failure") ->
  NoDup (dict_keys kw) ->
  "results" ∉ dict_keys kw ->
  exists data,
    formatter results kw w = (Ok (VStr (json_dumps data)), tick w) /\
    (forall k,
        dict_get k data =
          match dict_get k kw with
          | Some v => Some (EValue v)
          | None =>
              dict_get k [("hostname", EValue (VStr hostname));
                          ("status", EValue (VStr status));
                          ("timestamp", EValue (VNum (peek w)));
                          ("results", EResults results)]
          end) /\
    dict_keys data = (reserved_keys ++ list_difference (dict_keys kw) reserved_keys)%list.
Proof.
  intros Hwhich Hnd Hno.
  exists (json_data hostname status (peek w) results kw).
  split; [|by apply json_data_spec].
  destruct Hwhich as [[= -> ->] | [= -> ->]];
    unfold json_success_handler, json_failed_handler; by rewrite decide_False.
Qed.

Lemma custom_sections_shadow_reserved_keys_witness :
  exists data,
    json_failed_handler a_hostname keys_only [] some_kw ticking
      = (Ok (VStr (keys_only data)), tick ticking) /\
    (forall k,
        dict_get k data =
          match dict_get k some_kw with
          | Some v => Some (EValue v)
          | None =>
              dict_get k [("hostname", EValue (VStr a_hostname));
                          ("status", EValue (VStr "failure"));
                          ("timestamp", EValue (VNum (peek ticking)));
                          ("results", EResults [])]
          end) /\
    dict_keys data = (reserved_keys ++ list_difference (dict_keys some_kw) reserved_keys)%list.
Proof.
  apply (custom_sections_shadow_reserved_keys a_hostname keys_only
           (json_failed_handler a_hostname keys_only) "failure" [] some_kw ticking).
  - right. reflexivity.
  - apply (bool_decide_unpack _). vm_compute. exact I.
  - apply (bool_decide_unpack _). vm_compute. exact I.
Defined.

Section JsonRun.
Variable hostname : string.
Variable json_dumps : list (string * envelope_value) -> string.
Variable timeout : Q -> string -> callable -> callable.

(** X21: with the two JSON formatters installed and no custom section
    called results, a run that collects its results returns json.dumps of
    the formatter's dict, with status success and the success status and
    headers when every result passed and status failure with the failed ones
    otherwise, stamped with the clock reading after the sections were
    collected; with a section called results it raises TypeError. *)
Theorem run_with_json_formatters check s filtered results s1 custom_section s2 :
  success_handler (hc s) = Some (json_success_handler hostname json_dumps) ->
  failed_handler (hc s) = Some (json_failed_handler hostname json_dumps) ->
  HealthCheckMonitor.get_checkers check s = (Ok filtered, s) ->
  HealthCheck.collect_results timeout filtered [] s = (Ok results, s1) ->
  HealthCheck.collect_sections (functions (hc s1)) [] s1 = (Ok custom_section, s2) ->
  ("results" ∉ dict_keys custom_section ->
   HealthCheck.run timeout check s =
     (Ok (VStr (json_dumps
                  (json_data hostname
                     (if all_passed results then "success" else "failure")
                     (peek (world s2)) results custom_section)),
          (if all_passed results then success_status (hc s) else failed_status (hc s)),
          (if all_passed results then success_headers (hc s) else failed_headers (hc s))),
      set_world (tick (world s2)) s2)) /\
  ("results" ∈ dict_keys custom_section ->
   exists msg, fst (HealthCheck.run timeout check s) = Raise (TypeError msg)).
Proof.
  intros Hsh Hfh Hf Hres Hcs.
  pose proof (keeps_collect_results timeout filtered [] s) as [_ _ Hc1 _].
  pose proof (keeps_collect_sections (functions (hc s1)) [] s1) as [_ _ Hc2 _].
  rewrite Hres in Hc1. rewrite Hcs in Hc2. simpl in Hc1, Hc2.
  assert (config (hc s2) = config (hc s)) as Hcfg by congruence.
  assert (success_handler (hc s2) = success_handler (hc s)) as E1
    by exact (f_equal success_handler Hcfg).
  assert (failed_handler (hc s2) = failed_handler (hc s)) as E2
    by exact (f_equal failed_handler Hcfg).
  assert (success_status (hc s2) = success_status (hc s)) as E3
    by exact (f_equal success_status Hcfg).
  assert (failed_status (hc s2) = failed_status (hc s)) as E4
    by exact (f_equal failed_status Hcfg).
  assert (success_headers (hc s2) = success_headers (hc s)) as E5
    by exact (f_equal success_headers Hcfg).
  assert (failed_headers (hc s2) = failed_headers (hc s)) as E6
    by exact (f_equal failed_headers Hcfg).
  rewrite (run_unfold _ _ _ _ _ _ _ _ _ Hf Hres Hcs).
  unfold success_branch, failed_branch.
  rewrite E1, E2, E3, E4, E5, E6, Hsh, Hfh.
  unfold json_success_handler, json_failed_handler.
  split.
  - intros Hno. rewrite !decide_False by done. destruct (all_passed results); reflexivity.
  - intros Hyes. rewrite !decide_True by done.
    destruct (all_passed results); eexists; reflexivity.
Qed.

(** X22: with the JSON formatters installed, a static custom section
    named results makes every run that collects its results raise TypeError
    (the section is a second value for the formatter's first parameter)
    instead of returning a response. *)
Theorem section_called_results_makes_run_raise check s filtered results s1 pre v post :
  success_handler (hc s) = Some (json_success_handler hostname json_dumps) ->
  failed_handler (hc s) = Some (json_failed_handler hostname json_dumps) ->
  HealthCheckMonitor.get_checkers check s = (Ok filtered, s) ->
  HealthCheck.collect_results timeout filtered [] s = (Ok results, s1) ->
  functions (hc s) = (pre ++ ("results", Static v) :: post)%list ->
  NoDup (dict_keys (functions (hc s))) ->
  exists msg, fst (HealthCheck.run timeout check s) = Raise (TypeError msg).
Proof.
  intros Hsh Hfh Hf Hres Hfun Hnd.
  pose proof (keeps_collect_results timeout filtered [] s) as [_ _ Hc1 _].
  rewrite Hres in Hc1. simpl in Hc1.
  assert (functions (hc s1) = functions (hc s)) as Hfun1 by exact (f_equal functions Hc1).
  rewrite Hfun in Hnd.
  destruct (collect_sections_lookup pre "results" (Static v) post s1 Hnd)
    as (cs & s2 & Hcs & Hget).
  rewrite <- Hfun, <- Hfun1 in Hcs. simpl in Hget.
  apply dict_get_Some_key in Hget.
  assert (config (hc s2) = config (hc s)) as Hcfg.
  { pose proof (keeps_collect_sections (functions (hc s1)) [] s1) as [_ _ Hc2 _].
    rewrite Hcs in Hc2. simpl in Hc2. congruence. }
  rewrite (run_unfold _ _ _ _ _ _ _ _ _ Hf Hres Hcs).
  unfold success_branch, failed_branch.
  rewrite (f_equal success_handler Hcfg : success_handler (hc s2) = success_handler (hc s)).
  rewrite (f_equal failed_handler Hcfg : failed_handler (hc s2) = failed_handler (hc s)).
  rewrite Hsh, Hfh. unfold json_success_handler, json_failed_handler.
  rewrite !decide_True by done. destruct (all_passed results); eexists; reflexivity.
Qed.
End JsonRun.

Lemma run_with_json_formatters_witness :
  HealthCheck.run timeout None json_two_probes =
    (Ok (VStr "hostname,status,timestamp,results", 500%Z, json_headers),
     snd (HealthCheck.run timeout None json_two_probes)).
Proof.
  rewrite (proj1 (run_with_json_formatters a_hostname keys_only timeout None json_two_probes
                    [1%positive; 2%positive]
                    (value [] (fst (HealthCheck.collect_results timeout
                                      [1%positive; 2%positive] [] json_two_probes)))
                    (snd (HealthCheck.collect_results timeout
                            [1%positive; 2%positive] [] json_two_probes))
                    []
                    (snd (HealthCheck.collect_results timeout
                            [1%positive; 2%positive] [] json_two_probes))
                    ltac:(reflexivity) ltac:(reflexivity)
                    ltac:(vm_compute; reflexivity) ltac:(vm_compute; reflexivity)
                    ltac:(vm_compute; reflexivity))).
  - vm_compute. reflexivity.
  - apply not_elem_of_nil.
Defined.

Lemma section_called_results_makes_run_raise_witness :
  exists msg,
    fst (HealthCheck.run timeout None json_results_section) = Raise (TypeError msg).
Proof.
  apply (section_called_results_makes_run_raise a_hostname keys_only timeout None
           json_results_section [1%positive; 2%positive]
           (value [] (fst (HealthCheck.collect_results timeout
                             [1%positive; 2%positive] [] json_results_section)))
           (snd (HealthCheck.collect_results timeout
                   [1%positive; 2%positive] [] json_results_section))
           [] (VStr "mine") []).
  - reflexivity.
  - reflexivity.
  - vm_compute. reflexivity.
  - vm_compute. reflexivity.
  - vm_compute. reflexivity.
  - apply (bool_decide_unpack _). vm_compute. exact I.
Defined.

(** ** Construction *)

Lemma grows_refl s : grows s s.
Proof. by repeat split. Qed.

Lemma grows_trans s1 s2 s3 : grows s1 s2 -> grows s2 s3 -> grows s1 s3.
Proof.
  intros (?&?&?&?&?) (?&?&?&?&?). repeat split; try congruence; auto.
Qed.

Lemma dict_set_keeps {K V} `{EqDecision K} (k k' : K) (v : V) d :
  is_Some (dict_get k d) -> is_Some (dict_get k (dict_set k' v d)).
Proof.
  intros H. destruct (decide (k = k')) as [->|Hne].
  - rewrite dict_get_set_eq. eauto.
  - by rewrite dict_get_set_ne.
Qed.

Lemma add_check_spec c s :
  (forall o, c = CheckerInstance o -> is_Some (heap s !! o)) ->
  exists s', HealthCheck.add_check c s = (Ok tt, s') /\ grows s s'.
Proof.
  intros Hlive. destruct c as [o|f]; unfold HealthCheck.add_check.
  - destruct (Hlive o eq_refl) as [x Hx]. rewrite (register_spec o x s Hx).
    eexists. split; [done|]. repeat split; try done. simpl. intros k. apply dict_set_keeps.
  - unfold Checker.__init__, bind. rewrite alloc_spec.
    set (o := fresh (dom (heap s))).
    rewrite (decorate_state o {| _name := None; _wrapped := None |} f).
    2:{ simpl. apply lookup_insert_eq. }
    eexists. split; [done|]. repeat split; try done; simpl.
    + intros o' x Hx. assert (o' <> o) as Hne.
      { intros ->. apply (is_fresh (dom (heap s))). apply elem_of_dom. eauto. }
      by rewrite !lookup_insert_ne.
    + intros k. apply dict_set_keeps.
Qed.

Lemma for_each_add_section kw s :
  NoDup (dict_keys (functions (hc s) ++ kw)%list) ->
  for_each (fun kv =>
              let* self := gets hc in
              match dict_get (fst kv) (functions self) with
              | None => HealthCheck.add_section (fst kv) (snd kv)
              | Some _ => ret tt
              end) kw s
  = (Ok tt, set_hc (set_functions (functions (hc s) ++ kw)%list (hc s)) s).
Proof.
  revert s. induction kw as [|[k v] kw IH]; intros s Hnd; simpl.
  - unfold ret. rewrite app_nil_r. by destruct s as [? ? [] ? ? ?].
  - assert (dict_get k (functions (hc s)) = None) as Hfree.
    { apply dict_get_None. unfold dict_keys in *. rewrite map_app in Hnd.
      apply NoDup_app in Hnd as (_ & Hdisj & _). intros Hin. apply (Hdisj k Hin). left. }
    unfold bind at 1. unfold bind at 1. unfold gets at 1. rewrite Hfree.
    unfold HealthCheck.add_section, bind, gets, modify. rewrite Hfree.
    rewrite dict_set_absent by done. rewrite IH.
    + simpl. by rewrite <- app_assoc.
    + simpl. by rewrite <- app_assoc.
Qed.

Lemma check_key_grows s s' c :
  grows s s' ->
  (forall o, c = CheckerInstance o -> is_Some (heap s !! o)) ->
  check_key (heap s') c = check_key (heap s) c.
Proof.
  intros (_ & _ & _ & Hheap & _) Hlive. destruct c as [o|f]; [|done]. simpl.
  destruct (Hlive o eq_refl) as [x Hx]. by rewrite Hx, (Hheap o x Hx).
Qed.

Lemma resolves_to_key s s' c :
  resolves_to s s' c -> is_Some (dict_get (check_key (heap s) c) (checkers s')).
Proof.
  destruct c as [o|f]; simpl.
  - intros ->. eauto.
  - intros (o & -> & _). eauto.
Qed.

Lemma resolves_to_ext s0 s s1 s' c :
  heap s0 = heap s -> heap s1 = heap s' -> checkers s1 = checkers s' ->
  resolves_to s0 s1 c -> resolves_to s s' c.
Proof.
  intros H0 H1 H2. destruct c as [o|f]; simpl; rewrite ?H0, ?H1, ?H2; done.
Qed.

(** One [add_check]: the argument is registered under its name, and only
    that name changes. *)
Lemma add_check_resolves c s :
  (forall o, c = CheckerInstance o -> is_Some (heap s !! o)) ->
  exists s',
    HealthCheck.add_check c s = (Ok tt, s') /\ grows s s' /\
    resolves_to s s' c /\
    (forall k, k <> check_key (heap s) c ->
               dict_get k (checkers s') = dict_get k (checkers s)).
Proof.
  intros Hlive. destruct (add_check_spec c s Hlive) as (s' & Hadd & Hg).
  exists s'. split; [done|]. split; [done|]. destruct c as [o|f].
  - destruct (Hlive o eq_refl) as [x Hx].
    unfold HealthCheck.add_check in Hadd. rewrite (register_spec o x s Hx) in Hadd.
    injection Hadd as <-. simpl. rewrite Hx.
    split; [apply dict_get_set_eq|]. intros k Hk. by apply dict_get_set_ne.
  - rewrite (add_check_function_state f s) in Hadd. injection Hadd as <-. simpl. split.
    + exists (fresh (dom (heap s))). split; [apply dict_get_set_eq|].
      split; [apply lookup_insert_eq|]. apply not_elem_of_dom, is_fresh.
    + intros k Hk. by apply dict_get_set_ne.
Qed.

(** The loop over [checkers]: every one is registered under its name; when
    the names differ each name resolves to its checker; no other name
    changes. *)
Lemma for_each_add_check_registers l s :
  (forall o, CheckerInstance o ∈ l -> is_Some (heap s !! o)) ->
  exists s',
    for_each HealthCheck.add_check l s = (Ok tt, s') /\ grows s s' /\
    (forall k, k ∉ map (check_key (heap s)) l ->
               dict_get k (checkers s') = dict_get k (checkers s)) /\
    (forall c, c ∈ l -> is_Some (dict_get (check_key (heap s) c) (checkers s'))) /\
    (NoDup (map (check_key (heap s)) l) -> forall c, c ∈ l -> resolves_to s s' c).
Proof.
  revert s. induction l as [|c l IH]; intros s Hlive.
  - exists s. split; [done|]. split; [apply grows_refl|]. split; [done|].
    split; intros; by match goal with H : _ ∈ [] |- _ => apply elem_of_nil in H end.
  - destruct (add_check_resolves c s) as (s1 & Hadd & Hg1 & Hres1 & Hframe1).
    { intros o ->. apply Hlive. left. }
    assert (forall o, CheckerInstance o ∈ l -> is_Some (heap s1 !! o)) as Hlive1.
    { intros o Ho. destruct Hg1 as (_ & _ & _ & Hheap & _).
      destruct (Hlive o) as [x Hx]; [by right|]. rewrite (Hheap o x Hx). eauto. }
    assert (forall c', c' ∈ l -> check_key (heap s1) c' = check_key (heap s) c') as Hkey.
    { intros c' Hc'. apply check_key_grows; [done|]. intros o ->. apply Hlive. by right. }
    assert (map (check_key (heap s1)) l = map (check_key (heap s)) l) as Hkeys.
    { apply map_ext_in. intros c' Hc'. apply Hkey. by apply list_elem_of_In. }
    destruct (IH s1 Hlive1) as (s' & Hl & Hg2 & Hframe2 & Hreg2 & Hres2).
    rewrite Hkeys in Hframe2, Hres2.
    exists s'. simpl. unfold bind. rewrite Hadd.
    split; [done|]. split; [by eapply grows_trans|]. split; [|split].
    + intros k Hk. apply not_elem_of_cons in Hk as [Hne Hk].
      rewrite (Hframe2 k Hk). by apply Hframe1.
    + intros c' Hc'. apply elem_of_cons in Hc' as [->|Hc'].
      * destruct Hg2 as (_ & _ & _ & _ & Hmono). apply Hmono.
        by apply resolves_to_key.
      * rewrite <- (Hkey c' Hc'). by apply Hreg2.
    + intros Hnd c' Hc'. apply NoDup_cons in Hnd as [Hnotin Hnd].
      apply elem_of_cons in Hc' as [->|Hc'].
      * destruct Hg2 as (_ & _ & _ & Hheap2 & _).
        destruct c as [o|f]; simpl in *.
        -- by rewrite (Hframe2 _ Hnotin).
        -- destruct Hres1 as (o & Hget & Hobj & Hnew). exists o.
           rewrite (Hframe2 _ Hnotin). split; [done|]. split; [by apply Hheap2|done].
      * pose proof (Hres2 Hnd c' Hc') as Hres.
        destruct Hg1 as (_ & _ & _ & Hheap1 & _).
        destruct c' as [o|f].
        -- unfold resolves_to in *. by rewrite <- (Hkey _ Hc').
        -- simpl in *. destruct Hres as (o & Hget & Hobj & Hnew). exists o.
           split; [done|]. split; [done|].
           destruct (heap s !! o) as [x|] eqn:Hx; [|done].
           rewrite (Hheap1 o x Hx) in Hnew. done.
Qed.

(** X23: HealthCheck.__init__ returns with an aggregator that has an empty
    cache, the given statuses, handlers, timeout and adapter, JSON headers in
    place of missing or empty ones, 0 in place of a missing or zero ttl, and
    the keyword arguments as its custom sections, in order.  Every given
    checker is registered in the shared registry under its name (the name of
    a Checker instance, __name__ of a function); when these names differ,
    each name resolves to its checker: to the instance itself, or to a new
    handle wrapping the function.  Names that no given checker has resolve
    as before, earlier names stay registered, existing objects are kept and
    nothing is invoked; without checkers the registry and heap are
    untouched. *)
Theorem init_builds_a_fresh_aggregator a s :
  (forall o, CheckerInstance o ∈ checkers_of a -> is_Some (heap s !! o)) ->
  NoDup (dict_keys (arg_kwargs a)) ->
  exists s',
    HealthCheck.__init__ a s = (Ok tt, s') /\
    hc s' = new_aggregator a /\
    (forall k, is_Some (dict_get k (checkers s)) -> is_Some (dict_get k (checkers s'))) /\
    (checkers_of a = [] -> checkers s' = checkers s /\ heap s' = heap s) /\
    invoked s' = invoked s /\ world s' = world s /\
    (forall c, c ∈ checkers_of a ->
               is_Some (dict_get (check_key (heap s) c) (checkers s'))) /\
    (NoDup (map (check_key (heap s)) (checkers_of a)) ->
     forall c, c ∈ checkers_of a -> resolves_to s s' c) /\
    (forall k, k ∉ map (check_key (heap s)) (checkers_of a) ->
               dict_get k (checkers s') = dict_get k (checkers s)) /\
    (forall o x, heap s !! o = Some x -> heap s' !! o = Some x).
Proof.
  intros Hlive Hnd. unfold HealthCheck.__init__.
  set (R0 := {| cache := ∅; functions := [] |}).
  assert ((match arg_checkers a with
           | Some (c :: cs) => for_each HealthCheck.add_check (c :: cs)
           | _ => ret tt
           end) = for_each HealthCheck.add_check (checkers_of a)) as ->.
  { unfold checkers_of. by destruct (arg_checkers a) as [[|c cs]|]. }
  destruct (for_each_add_check_registers (checkers_of a) (set_hc R0 s) Hlive)
    as (s1 & Hloop & Hg & Hframe & Hreg & Hres).
  assert (checkers_of a = [] -> s1 = set_hc R0 s) as Hnone.
  { intros Hempty. rewrite Hempty in Hloop. simpl in Hloop. unfold ret in Hloop.
    by injection Hloop as <-. }
  destruct Hg as (Hhc & Hw & Hi & Hheap & Hmono). simpl in Hhc, Hw, Hi, Hmono, Hheap.
  simpl in Hframe, Hreg, Hres.
  unfold bind at 1. unfold modify at 1. unfold bind at 1. rewrite Hloop.
  unfold bind at 1. unfold modify at 1.
  rewrite for_each_add_section by done.
  eexists. split; [done|]. simpl. rewrite Hhc. simpl.
  split; [done|]. split; [done|]. split.
  { intros Hempty. by rewrite (Hnone Hempty). }
  split; [done|]. split; [done|]. split; [done|]. split; [|by split].
  intros Hndk c Hc. by apply (resolves_to_ext (set_hc R0 s) s s1 _ c), Hres.
Qed.

Lemma init_builds_a_fresh_aggregator_witness :
  exists s',
    HealthCheck.__init__ some_args bare_checker = (Ok tt, s') /\
    hc s' = new_aggregator some_args /\
    (forall k, is_Some (dict_get k (checkers bare_checker)) ->
               is_Some (dict_get k (checkers s'))) /\
    (checkers_of some_args = [] ->
     checkers s' = checkers bare_checker /\ heap s' = heap bare_checker) /\
    invoked s' = invoked bare_checker /\ world s' = world bare_checker /\
    (forall c, c ∈ checkers_of some_args ->
               is_Some (dict_get (check_key (heap bare_checker) c) (checkers s'))) /\
    (NoDup (map (check_key (heap bare_checker)) (checkers_of some_args)) ->
     forall c, c ∈ checkers_of some_args -> resolves_to bare_checker s' c) /\
    (forall k, k ∉ map (check_key (heap bare_checker)) (checkers_of some_args) ->
               dict_get k (checkers s') = dict_get k (checkers bare_checker)) /\
    (forall o x, heap bare_checker !! o = Some x -> heap s' !! o = Some x).
Proof.
  apply (init_builds_a_fresh_aggregator some_args bare_checker).
  - intros o Ho. apply elem_of_cons in Ho as [Ho|Ho]; [discriminate|].
    apply list_elem_of_singleton in Ho. injection Ho as ->.
    eexists. vm_compute. reflexivity.
  - apply (bool_decide_unpack _). vm_compute. exact I.
Defined.

(** The names of the checkers of [some_args] differ. *)
Example some_args_names :
  map (check_key (heap bare_checker)) (checkers_of some_args) = [Some "mail"; Some "db"].
Proof. vm_compute. reflexivity. Qed.

(** ** The decorator scenario *)

Lemma dict_get_app_absent {K V} `{EqDecision K} (k : K) (d d' : list (K * V)) :
  dict_get k d = None -> dict_get k (d ++ d')%list = dict_get k d'.
Proof.
  induction d as [|[k' v'] d IH]; simpl; [done|].
  destruct (decide (k = k')); [done|]. apply IH.
Qed.

Lemma registered_spec fs s :
  NoDup (map __name__ fs) ->
  (forall f, f ∈ fs -> dict_get (Some (__name__ f)) (checkers s) = None) ->
  exists os,
    checkers (registered fs s) =
      (checkers s ++ zip (map (fun f => Some (__name__ f)) fs) os)%list /\
    length os = length fs /\
    NoDup os /\
    (forall o, o ∈ os -> o ∉ dom (heap s)) /\
    Forall2 (fun f o => heap (registered fs s) !! o = Some (handle_of f)) fs os /\
    (forall o x, heap s !! o = Some x -> heap (registered fs s) !! o = Some x) /\
    hc (registered fs s) = hc s /\ world (registered fs s) = world s /\
    invoked (registered fs s) = invoked s.
Proof.
  revert s. induction fs as [|f fs IH]; intros s Hnd Hfree; cbn [registered].
  - exists []. simpl. rewrite app_nil_r. repeat split; try done; try constructor.
    intros o Ho. by apply elem_of_nil in Ho.
  - apply NoDup_cons in Hnd as [Hnotin Hnd].
    rewrite checker_function_state. cbn [snd].
    set (o := fresh (dom (heap s))).
    set (s1 := set_heap _ _).
    assert (checkers s1 = (checkers s ++ [(Some (__name__ f), o)])%list) as Hreg1.
    { subst s1. simpl. apply dict_set_absent, Hfree. left. }
    destruct (IH s1 Hnd) as (os & Hreg & Hlen & Hndo & Hfresh & Hall & Hmono & Hhc & Hw & Hi).
    { intros g Hg. rewrite Hreg1. rewrite dict_get_app_absent by (apply Hfree; by right).
      simpl. rewrite decide_False; [done|]. intros [= Heq].
      apply Hnotin. rewrite <- Heq. apply list_elem_of_fmap. by exists g. }
    assert (heap s1 !! o = Some (handle_of f)) as Ho by apply lookup_insert_eq.
    exists (o :: os). simpl. split; [|split; [|split; [|split; [|split; [|split]]]]].
    + rewrite Hreg, Hreg1, <- app_assoc. done.
    + by rewrite Hlen.
    + apply NoDup_cons. split; [|done]. intros Hin. apply (Hfresh o Hin).
      apply elem_of_dom. eauto.
    + intros o' Ho'. apply elem_of_cons in Ho' as [->|Ho'].
      * apply is_fresh.
      * intros Hdom. apply (Hfresh o' Ho'). subst s1. simpl.
        rewrite dom_insert. set_solver.
    + constructor; [by apply Hmono|done].
    + intros o' x Hx. apply Hmono. subst s1. simpl.
      rewrite lookup_insert_ne; [done|]. intros <-.
      apply (is_fresh (dom (heap s))). apply elem_of_dom. eauto.
    + done.
Qed.

Lemma init_default hostname json_dumps s :
  HealthCheck.__init__ (default_args hostname json_dumps) s =
    (Ok tt, set_hc (new_aggregator (default_args hostname json_dumps)) s).
Proof. by destruct s. Qed.

(** X24: the decorator scenario end to end: after unregister_all, checker
    applied to functions of distinct names that return passing pairs, and
    HealthCheck() with its defaults, run() returns status 200 with the JSON
    headers and the success formatter's output over one result per function,
    having invoked each new handle exactly once, in registration order; each
    handle forwards calls with no keyword named self or func to its
    function. *)
Theorem registered_passing_probes_run_once hostname json_dumps timeout fs s :
  NoDup (map __name__ fs) ->
  (forall f, f ∈ fs -> passing f) ->
  let s1 := registered fs (snd (HealthCheckMonitor.unregister_all s)) in
  let s2 := snd (HealthCheck.__init__ (default_args hostname json_dumps) s1) in
  exists os results t s3,
    HealthCheck.run timeout None s2 =
      (Ok (VStr (json_dumps (json_data hostname "success" t results [])),
           200%Z, json_headers), s3) /\
    length results = length fs /\
    invoked s3 = (invoked s ++ os)%list /\
    NoDup os /\
    Forall2 (fun f o => forall a w, forwardable a ->
                                    call_object (heap s3) o a w = code f a w) fs os.
Proof.
  intros Hnd Hpass s1 s2.
  destruct (registered_spec fs (snd (HealthCheckMonitor.unregister_all s)) Hnd)
    as (os & Hreg & Hlen & Hndo & _ & Hall & _ & _ & _ & Hi); [done|].
  fold s1 in Hreg, Hall, Hi. simpl in Hreg, Hi.
  assert (s2 = set_hc (new_aggregator (default_args hostname json_dumps)) s1) as Hs2.
  { subst s2. by rewrite init_default. }
  clearbody s2. clearbody s1. subst s2.
  set (s2 := set_hc (new_aggregator (default_args hostname json_dumps)) s1).
  assert (HealthCheckMonitor.get_checkers None s2 = (Ok os, s2)) as Hf.
  { unfold HealthCheckMonitor.get_checkers, gets. simpl. rewrite Hreg.
    unfold dict_values. rewrite snd_zip; [done|]. rewrite length_map. lia. }
  assert (forall f o, heap s1 !! o = Some (handle_of f) ->
                      forall a w, forwardable a ->
                                  call_object (heap s2) o a w = code f a w) as Hcall.
  { intros f o Ho a w Hfw. by eapply handle_forwards. }
  assert (forall o, o ∈ os -> exists f, f ∈ fs /\ heap s1 !! o = Some (handle_of f)) as Hos.
  { intros o Ho. apply list_elem_of_lookup in Ho as [i Hi'].
    destruct (Forall2_lookup_r _ _ _ _ _ Hall Hi') as (f & Hf' & Hh).
    exists f. split; [|done]. by eapply list_elem_of_lookup_2. }
  destruct (collect_results_passing timeout os os [] s2)
    as (results & s3 & Hres & Hallp & Hinv); try done.
  { intros o Ho. destruct (Hos o Ho) as (f & _ & Hh). simpl. rewrite Hh.
    eexists. reflexivity. }
  { intros o Ho w. destruct (Hos o Ho) as (f & Hfin & Hh).
    destruct (Hpass f Hfin no_args w) as (p & out & w' & Hc & Hp).
    exists p, out, w'. split; [|done].
    rewrite guarded_disabled; [|simpl; lra].
    by rewrite (Hcall f o Hh no_args w forwardable_no_args). }
  pose proof (keeps_collect_results timeout os [] s2) as [Hheap _ Hcfg _].
  destruct (collect_results_shape timeout os [] s2) as (_ & Hshape).
  rewrite Hres in Hheap, Hcfg, Hshape. simpl in Hheap, Hcfg, Hshape.
  destruct (Hshape results eq_refl) as [Hlenr _].
  assert (HealthCheck.collect_sections (functions (hc s3)) [] s3 = (Ok [], s3)) as Hcs.
  { by rewrite (f_equal functions Hcfg : functions (hc s3) = _). }
  exists os, results, (peek (world s3)), (set_world (tick (world s3)) s3).
  split; [|split; [|split; [|split]]].
  - rewrite (run_unfold _ _ _ _ _ _ _ _ _ Hf Hres Hcs), Hallp.
    unfold success_branch.
    rewrite (f_equal success_handler Hcfg : success_handler (hc s3) = _).
    rewrite (f_equal success_status Hcfg : success_status (hc s3) = _).
    rewrite (f_equal success_headers Hcfg : success_headers (hc s3) = _).
    reflexivity.
  - rewrite Hlenr. simpl. lia.
  - simpl. rewrite Hinv; [|done|].
    + simpl. by rewrite Hi.
    + intros o _. apply lookup_empty.
  - done.
  - simpl. rewrite Hheap. eapply Forall2_impl; [exact Hall|].
    intros f o Ho. by apply Hcall.
Qed.

Lemma registered_passing_probes_run_once_witness :
  let s1 := registered [probe_ok; probe_mail]
              (snd (HealthCheckMonitor.unregister_all two_probes)) in
  let s2 := snd (HealthCheck.__init__ (default_args a_hostname keys_only) s1) in
  exists os results t s3,
    HealthCheck.run timeout None s2 =
      (Ok (VStr (keys_only (json_data a_hostname "success" t results [])),
           200%Z, json_headers), s3) /\
    length results = length [probe_ok; probe_mail] /\
    invoked s3 = (invoked two_probes ++ os)%list /\
    NoDup os /\
    Forall2 (fun f o => forall a w, forwardable a ->
                                    call_object (heap s3) o a w = code f a w)
      [probe_ok; probe_mail] os.
Proof.
  apply (registered_passing_probes_run_once a_hostname keys_only timeout
           [probe_ok; probe_mail] two_probes).
  - apply (bool_decide_unpack _). vm_compute. exact I.
  - intros f Hf a w. apply elem_of_cons in Hf as [->|Hf].
    + exists (VBool true), (VStr "fine"), w. split; reflexivity.
    + apply list_elem_of_singleton in Hf as ->.
      exists (VBool true), (VStr "sent"), w. split; reflexivity.
Defined.
